(** * nuxt-og-image: the screenshot pre-rendering pipeline of [src/module.ts]

    A shallow embedding of the build-time part of the module's [setup]:
    the [prerender:generate] handler that fills [screenshotQueue], the
    route-rule cascade [defu({}, ...matchAll(route).reverse())] it relies
    on, and [captureScreenshots], which drains the queue against a preview
    server and one browser. *)

From stdpp Require Import base option list strings pretty gmap fin_maps.

#[local] Set Warnings "-register-all".
#[local] Open Scope string_scope.
#[local] Open Scope list_scope.

(** ** JavaScript values

    The payload of a directive is whatever [JSON.parse] returns and a
    route rule is a [Record<string, any>], so both are untyped values.
    Objects are finite maps from property names to values; arrays are
    lists.  Numbers are modelled by the integers, and [VNum z] stands
    for a number that JavaScript prints as the decimal of [z] (an
    integer below [10^21] in absolute value): the module only tests a
    number for truthiness and prints it inside a template literal. *)

Inductive value : Type :=
| VUndef
| VNull
| VBool (b : bool)
| VNum (z : Z)
| VStr (s : string)
| VArr (l : list value)
| VObj (o : gmap string value).

(** [o.k]: reading a missing property gives [undefined], and so does
    reading a property of a primitive. *)
Definition get (k : string) (v : value) : value :=
  match v with
  | VObj o => default VUndef (o !! k)
  | _ => VUndef
  end.

(** [!!v], the truthiness every [if (x)], [!x] and [x || y] relies on. *)
Definition truthy (v : value) : bool :=
  match v with
  | VUndef | VNull => false
  | VBool b => b
  | VNum z => negb (z =? 0)%Z
  | VStr s => negb (String.eqb s EmptyString)
  | VArr _ | VObj _ => true
  end.

(** [v === false] *)
Definition is_false (v : value) : bool :=
  match v with
  | VBool false => true
  | _ => false
  end.

(** [v === s] for a string literal [s] *)
Definition is_string (s : string) (v : value) : bool :=
  match v with
  | VStr t => String.eqb t s
  | _ => false
  end.

(** [v === null || v === undefined] *)
Definition is_nullish (v : value) : bool :=
  match v with
  | VUndef | VNull => true
  | _ => false
  end.

(** defu's [isObject]: [value !== null && typeof value === "object"],
    which arrays satisfy as well. *)
Definition isObject (v : value) : bool :=
  match v with
  | VArr _ | VObj _ => true
  | _ => false
  end.

(** The index properties ["0"], ["1"], ... of an array or of a string. *)
Fixpoint indexed {A} (f : A -> value) (i : nat) (l : list A)
  : gmap string value :=
  match l with
  | [] => ∅
  | x :: l' => <[pretty i := f x]> (indexed f (S i) l')
  end.

Definition char_value (a : Ascii.ascii) : value := VStr (String a EmptyString).

(** The own enumerable properties of a value, as [{...v}] and
    [Object.assign({}, v)] copy them. *)
Definition own_properties (v : value) : gmap string value :=
  match v with
  | VObj o => o
  | VArr l => indexed id 0 l
  | VStr s => indexed char_value 0 (String.list_ascii_of_string s)
  | _ => ∅
  end.

(** [{...a, ...b}]: the properties of [b] win. *)
Definition spread (a b : gmap string value) : gmap string value := b ∪ a.

(** ** Strings *)

Fixpoint startsWith (p s : string) : bool :=
  match p, s with
  | EmptyString, _ => true
  | String a p', String b s' => Ascii.eqb a b && startsWith p' s'
  | String _ _, EmptyString => false
  end.

(** [s.indexOf(p)], [None] for [-1]. *)
Fixpoint indexOf (p s : string) : option nat :=
  if startsWith p s then Some 0
  else match s with
       | EmptyString => None
       | String _ s' => S <$> indexOf p s'
       end.

Definition includes (p s : string) : bool := bool_decide (is_Some (indexOf p s)).

Fixpoint string_drop (n : nat) (s : string) : string :=
  match n, s with
  | 0, _ => s
  | S n', String _ s' => string_drop n' s'
  | S _, EmptyString => EmptyString
  end.

Fixpoint string_take (n : nat) (s : string) : string :=
  match n, s with
  | S n', String a s' => String a (string_take n' s')
  | _, _ => EmptyString
  end.

(** [s.endsWith(p)] *)
Definition endsWith (p s : string) : bool :=
  bool_decide (String.length p <= String.length s)%nat &&
  String.eqb (string_drop (String.length s - String.length p) s) p.

(** [s.replace(p, r)] for a string pattern: the first occurrence only. *)
Definition replace_first (p r s : string) : string :=
  match indexOf p s with
  | None => s
  | Some i => string_take i s +:+ r +:+ string_drop (i + String.length p) s
  end.

(** [s.split(sep)[1]] for a non-empty separator: the text between the
    first and the second occurrence of [sep], [undefined] when [sep] does
    not occur. *)
Definition split_second (sep s : string) : value :=
  match indexOf sep s with
  | None => VUndef
  | Some i =>
      let rest := string_drop (i + String.length sep) s in
      match indexOf sep rest with
      | None => VStr rest
      | Some j => VStr (string_take j rest)
      end
  end.

(** White space as [String.prototype.trim] sees it, among the code units
    below 256: tab, line feed, vertical tab, form feed, carriage return,
    space and the no-break space. *)
Definition is_space (a : Ascii.ascii) : bool :=
  let n := Ascii.nat_of_ascii a in
  ((9 <=? n) && (n <=? 13) || (n =? 32) || (n =? 160))%nat.

Fixpoint trim_start (s : string) : string :=
  match s with
  | String a s' => if is_space a then trim_start s' else s
  | EmptyString => EmptyString
  end.

Fixpoint trim_end (s : string) : string :=
  match s with
  | EmptyString => EmptyString
  | String a s' =>
      match trim_end s' with
      | EmptyString => if is_space a then EmptyString else String a EmptyString
      | t => String a t
      end
  end.

Definition trim (s : string) : string := trim_end (trim_start s).

(** [`${v}`]: the string a template literal makes of a value; a number
    is printed as its decimal, which is what JavaScript does with an
    integer below [10^21] in absolute value. *)
Fixpoint to_js_string (v : value) : string :=
  match v with
  | VUndef => "undefined"
  | VNull => "null"
  | VBool true => "true"
  | VBool false => "false"
  | VNum z => pretty z
  | VStr s => s
  | VArr l =>
      (fix join (l : list value) : string :=
         match l with
         | [] => EmptyString
         | [x] => if is_nullish x then EmptyString else to_js_string x
         | x :: l' =>
             (if is_nullish x then EmptyString else to_js_string x)
               +:+ "," +:+ join l'
         end) l
  | VObj _ => "[object Object]"
  end.

(** ** defu

    [defu] (version 6.1.2, the one [package.json] asks for) assigns
    defaults recursively; its leftmost argument has the highest priority.
    [_defu(baseObject, defaults)] starts from a copy of [defaults] and
    lets every property of [baseObject] that is neither [null] nor
    [undefined] win over it, except that two arrays are concatenated and
    two objects are merged recursively. *)

(** One round of the [for (const key in baseObject)] loop: what
    [object[key]] becomes, given [val = baseObject[key]] and the
    current [object[key]]. *)
Definition assign_default (rec : value -> value -> value)
    (val : value) (current : option value) : option value :=
  if is_nullish val then current
  else Some
    match val, current with
    | VArr a, Some (VArr d) => VArr (a ++ d)
    | _, Some d => if isObject val && isObject d then rec val d else val
    | _, None => val
    end.

(** The loop leaves the keys [__proto__] and [constructor] of the copy of
    [defaults] as they are. *)
Definition keep_key (k : string) (object result : gmap string value)
  : gmap string value :=
  match object !! k with
  | Some v => <[k := v]> result
  | None => delete k result
  end.

(** [Object.assign({}, defaults)], after a [defaults] that is not an
    object has been replaced by [{}]. *)
Definition defaults_copy (defaults : value) : gmap string value :=
  if isObject defaults then own_properties defaults else ∅.

(** The loop visits every key of [baseObject] once and touches that key of
    [object] only, so over an object it is a key-wise merge of the two
    maps; over an array (which [isObject] lets through) the keys are the
    indices.  A primitive [baseObject] has no keys to visit. *)
Fixpoint _defu (baseObject defaults : value) {struct baseObject} : value :=
  let object : gmap string value := defaults_copy defaults in
  match baseObject with
  | VObj base =>
      VObj (keep_key "__proto__" object (keep_key "constructor" object
        (merge (fun b d =>
                  match b with
                  | Some val => assign_default _defu val d
                  | None => d
                  end) base object)))
  | VArr l =>
      VObj ((fix loop (i : nat) (l : list value) (object : gmap string value) :=
               match l with
               | [] => object
               | val :: l' =>
                   loop (S i) l'
                     (match assign_default _defu val (object !! pretty i) with
                      | Some v => <[pretty i := v]> object
                      | None => object
                      end)
               end) 0%nat l object)
  | _ => VObj object
  end.

(** [defu(...args)] is [args.reduce((p, c) => _defu(p, c, ""), {})]. *)
Definition defu (args : list value) : value :=
  foldl _defu (VObj ∅) args.

(** ** The world around the module *)

(** What a [throw] carries. *)
Inductive error : Type :=
| TypeError
| SyntaxError
| Failure (msg : string).

Inductive outcome (A : Type) : Type :=
| Returns (a : A)
| Throws (e : error).
Arguments Returns {A} a.
Arguments Throws {A} e.

(** The [ctx] Nitro hands to [prerender:generate]: the route, the
    rendered contents (if any) and the name of the file they go to. *)
Record PrerenderRoute : Type := {
  route : string;
  contents : option string;
  fileName : string;
}.

(** An entry of [screenshotQueue]: the merged properties and, under the
    key [ctx], the render context itself. *)
Record OgImageOptions : Type := {
  fields : gmap string value;
  ctx : PrerenderRoute;
}.

(** [options.k] for a key other than [ctx]. *)
Definition prop (k : string) (options : OgImageOptions) : value :=
  default VUndef (fields options !! k).

(** The functions [module.ts] imports and calls but does not define:
    [./utils] of this repository, radix3's matcher built from
    [nitro.options.routeRules], ufo's [joinURL] and pathe's [relative]. *)
Record Externals : Type := {
  extractOgImageOptions : string -> outcome value;
  stripOgImageOptions : string -> string;
  matchAll : string -> list (gmap string value);
  joinURL : string -> string -> string;
  relative : string -> string -> string;
}.

(** The options the closures read: [nuxt.options._generate],
    [nitro.options.output.publicDir] and [config.defaults]. *)
Record Settings : Type := {
  _generate : bool;
  publicDir : string;
  defaults : gmap string value;
}.

(** ** The [prerender:generate] handler *)

Record HookResult : Type := {
  completion : outcome unit;
  ctx_after : PrerenderRoute;
  queue_after : list OgImageOptions;
}.

(** [ctx.route.includes('.') || ctx.route.endsWith('__og_image__/html')]:
    files and the og:image route itself are not scanned. *)
Definition skipped_route (route : string) : bool :=
  includes "." route || endsWith "__og_image__/html" route.

Section Prerender.
Context (ext : Externals) (cfg : Settings).

(** [defu({}, ..._routeRulesMatcher.matchAll(route).reverse())] *)
Definition routeRules (route : string) : value :=
  defu (VObj ∅ :: (VObj <$> reverse (matchAll ext route))).

(** The object literal
    [{ path: ctx.route, ...extractedOptions, ...(routeRules.ogImage || {}), ctx }]. *)
Definition merge_options (ctx : PrerenderRoute) (extractedOptions ogImage : value)
  : OgImageOptions :=
  {| fields :=
       delete "ctx"
         (spread
            (spread {[ "path" := VStr (route ctx) ]}
                    (own_properties extractedOptions))
            (own_properties (if truthy ogImage then ogImage else VObj ∅)));
     ctx := ctx |}.

(** [(nuxt.options._generate || options.static) && options.provider === 'browser'] *)
Definition should_queue (options : OgImageOptions) : bool :=
  (_generate cfg || truthy (prop "static" options))
  && is_string "browser" (prop "provider" options).

Definition prerender_generate
    (ctx : PrerenderRoute) (screenshotQueue : list OgImageOptions) : HookResult :=
  let untouched :=
    {| completion := Returns tt; ctx_after := ctx; queue_after := screenshotQueue |} in
  if skipped_route (route ctx) then untouched
  else
    match contents ctx with
    | None => untouched
    | Some html =>
        if String.eqb html EmptyString then untouched
        else
          match extractOgImageOptions ext html with
          | Throws e =>
              {| completion := Throws e; ctx_after := ctx;
                 queue_after := screenshotQueue |}
          | Returns extractedOptions =>
              let ctx' :=
                {| route := route ctx;
                   contents := Some (stripOgImageOptions ext html);
                   fileName := fileName ctx |} in
              let rules := routeRules (route ctx) in
              if negb (truthy extractedOptions) || is_false (get "ogImage" rules)
              then {| completion := Returns tt; ctx_after := ctx';
                      queue_after := screenshotQueue |}
              else
                let options :=
                  merge_options ctx' extractedOptions (get "ogImage" rules) in
                {| completion := Returns tt; ctx_after := ctx';
                   queue_after :=
                     if should_queue options
                     then screenshotQueue ++ [options]
                     else screenshotQueue |}
          end
    end.

(** The queue after Nitro has called the hook on each page in turn. *)
Definition prerender_pass (pages : list PrerenderRoute)
    (screenshotQueue : list OgImageOptions) : list OgImageOptions :=
  foldl (fun q page => queue_after (prerender_generate page q))
        screenshotQueue pages.

End Prerender.

(** ** [captureScreenshots]: effects

    Everything the function does to the outside is recorded as an event,
    at the moment of the call; everything the outside answers is fixed
    beforehand by a [World]. *)

Definition Buffer : Type := list Byte.byte.

(** A handle on the browser [createBrowser] launched. *)
Inductive Browser : Type := Chromium.

(** One line of the tree report.  The line is printed red when [failed]
    and gray otherwise, with the glyph of the last entry when [last]; the
    percentage it ends with is [Math.round(finished / total * 100)]. *)
Record ReportLine : Type := {
  failed : bool;
  last_glyph : bool;
  file : string;
  generateTimeMS : Z;
  finished : nat;
  total : nat;
}.

Inductive event : Type :=
| Spawn (command : string) (args : list string)
| CreateBrowser
| PreRendering (n : nat)
| Screenshot (url : string) (options : OgImageOptions)
| Mkdirp (dirname : string)
| WriteFile (filename : string) (data : Buffer)
| ConsoleError (e : error)
| Report (line : ReportLine)
| NoBrowser
| BrowserClose
| Kill.

(** What becomes of a promise: it is resolved, it is rejected, or it is
    never settled. *)
Inductive promise (A : Type) : Type :=
| Resolved (a : A)
| Rejected (e : error)
| Pending.
Arguments Resolved {A} a.
Arguments Rejected {A} e.
Arguments Pending {A}.

(** The answers of the outside.  [stdout] lists the [data] chunks the
    preview server writes during its whole life ([None]: the subprocess
    has no stdout stream); [launch] is what becomes of [createBrowser()];
    [screenshot k], [mkdirp k] and [writeFile k] are what becomes of
    these calls for the entry of index [k]; [close] is what becomes of
    [browser.close()], and [kill] is what [previewProcess.kill()] does;
    [clock n] is the [n]-th reading of [Date.now()].  Every call the
    function awaits may resolve, reject or stay pending for good; [kill]
    is not awaited: it returns or throws. *)
Record World : Type := {
  stdout : option (list string);
  launch : promise (option Browser);
  screenshot : nat -> promise Buffer;
  mkdirp : nat -> promise unit;
  writeFile : nat -> promise unit;
  close : promise unit;
  kill : outcome unit;
  clock : nat -> Z;
}.

(** The variables the closure works on: the queue shared with the
    handler, the local [browser], the events so far and the number of
    clock readings taken. *)
Record State : Type := {
  screenshotQueue : list OgImageOptions;
  browser : option Browser;
  events : list event;
  ticks : nat;
}.

(** How an [async] computation ends: with a value, with an exception, or
    never, when it awaits a promise nobody settles. *)
Inductive result (A : Type) : Type :=
| Val (a : A)
| Exn (e : error)
| Hang.
Arguments Val {A} a.
Arguments Exn {A} e.
Arguments Hang {A}.

Definition M (A : Type) : Type := State -> result A * State.

#[global] Instance M_ret : MRet M := fun A a s => (Val a, s).

#[global] Instance M_bind : MBind M := fun A B f m s =>
  match m s with
  | (Val a, s') => f a s'
  | (Exn e, s') => (Exn e, s')
  | (Hang, s') => (Hang, s')
  end.

Definition throw {A} (e : error) : M A := fun s => (Exn e, s).

Definition never {A} : M A := fun s => (Hang, s).

(** [try { m } catch (e) { h(e) }] *)
Definition try_catch {A} (m : M A) (h : error -> M A) : M A := fun s =>
  match m s with
  | (Exn e, s') => h e s'
  | r => r
  end.

(** [try { m } finally { f }]: [f] runs however [m] ends, unless [m]
    never ends; an exception of [f] replaces the result of [m]. *)
Definition try_finally {A} (m : M A) (f : M unit) : M A := fun s =>
  match m s with
  | (Hang, s') => (Hang, s')
  | (r, s') =>
      match f s' with
      | (Val _, s'') => (r, s'')
      | (Exn e, s'') => (Exn e, s'')
      | (Hang, s'') => (Hang, s'')
      end
  end.

Definition emit (ev : event) : M unit := fun s =>
  (Val tt, {| screenshotQueue := screenshotQueue s; browser := browser s;
              events := events s ++ [ev]; ticks := ticks s |}).

Definition get_queue : M (list OgImageOptions) := fun s =>
  (Val (screenshotQueue s), s).

Definition set_queue (q : list OgImageOptions) : M unit := fun s =>
  (Val tt, {| screenshotQueue := q; browser := browser s;
              events := events s; ticks := ticks s |}).

Definition get_browser : M (option Browser) := fun s => (Val (browser s), s).

Definition set_browser (b : option Browser) : M unit := fun s =>
  (Val tt, {| screenshotQueue := screenshotQueue s; browser := b;
              events := events s; ticks := ticks s |}).

Definition of_outcome {A} (o : outcome A) : M A :=
  match o with
  | Returns a => mret a
  | Throws e => throw e
  end.

(** [for (const k in l) body(Number(k), l[k])]: the indices of an array
    come in ascending order. *)
Fixpoint for_in {A} (k : nat) (l : list A) (body : nat -> A -> M unit) : M unit :=
  match l with
  | [] => mret tt
  | x :: l' => body k x ;; for_in (S k) l' body
  end.

(** ** The readiness promise *)

(** The [data] listener, chunk after chunk: the first chunk that includes
    the marker resolves the promise, and a promise is settled once. *)
Fixpoint on_data (chunks : list string) : promise value :=
  match chunks with
  | [] => Pending
  | data :: rest =>
      if includes "Accepting connections at" data
      then Resolved (split_second "Accepting connections at " data)
      else on_data rest
  end.

(** [new Promise((resolve) => { previewProcess.stdout?.on('data', ...) })] *)
Definition ready (w : World) : promise value :=
  match stdout w with
  | Some chunks => on_data chunks
  | None => Pending
  end.

(** ** [captureScreenshots] *)

Section Capture.
Context (ext : Externals) (cfg : Settings) (w : World).

Definition await {A} (p : promise A) : M A :=
  match p with
  | Resolved a => mret a
  | Rejected e => throw e
  | Pending => never
  end.

(** [v.trim()]: a [TypeError] unless [v] is a string. *)
Definition js_trim (v : value) : M string :=
  match v with
  | VStr s => mret (trim s)
  | _ => throw TypeError
  end.

Definition Date_now : M Z := fun s =>
  (Val (clock w (ticks s)),
   {| screenshotQueue := screenshotQueue s; browser := browser s;
      events := events s; ticks := S (ticks s) |}).

Definition createBrowser : M (option Browser) :=
  emit CreateBrowser ;; await (launch w).

(** [{ ...(config.defaults || {}), ...(entry || {}) }] *)
Definition screenshot_options (entry : OgImageOptions) : OgImageOptions :=
  {| fields := delete "ctx" (spread (defaults cfg) (fields entry));
     ctx := ctx entry |}.

Definition dirname_of (entry : OgImageOptions) : string :=
  joinURL ext (publicDir cfg)
    (replace_first "index.html" EmptyString (fileName (ctx entry))
       +:+ "__og_image__/").

Definition filename_of (entry : OgImageOptions) : string :=
  joinURL ext (dirname_of entry) "/og.png".

Definition url_of (host : string) (entry : OgImageOptions) : string :=
  host +:+ to_js_string (prop "path" entry).

(** The body of the loop over the queue, for the entry of index [k] of
    [n]. *)
Definition capture_entry (host : string) (n k : nat) (entry : OgImageOptions)
  : M unit :=
  start ← Date_now;
  let dirname := dirname_of entry in
  let filename := filename_of entry in
  hasError ←
    try_catch
      (imgBuffer ←
         (emit (Screenshot (url_of host entry) (screenshot_options entry)) ;;
          await (screenshot w k));
       try_catch (emit (Mkdirp dirname) ;; await (mkdirp w k))
                 (fun _ => mret tt) ;;
       emit (WriteFile filename imgBuffer) ;;
       await (writeFile w k) ;;
       mret false)
      (fun e => emit (ConsoleError e) ;; mret true);
  stop ← Date_now;
  emit (Report {| failed := hasError;
                  last_glyph := bool_decide (k = n - 1)%nat;
                  file := relative ext (publicDir cfg) filename;
                  generateTimeMS := stop - start;
                  finished := k + 1;
                  total := n |}).

Definition captureScreenshots : M unit :=
  q ← get_queue;
  if bool_decide (length q = 0)%nat then mret tt
  else
    emit (Spawn "npx" ["serve"; publicDir cfg]) ;;
    set_browser None ;;
    try_finally
      (try_catch
         (data ← await (ready w);
          host ← js_trim data;
          b ← createBrowser;
          set_browser b ;;
          match b with
          | Some _ =>
              emit (PreRendering (length q)) ;;
              for_in 0 q (capture_entry host (length q))
          | None => emit NoBrowser
          end)
         (fun e => emit (ConsoleError e)))
      (b ← get_browser;
       match b with
       | Some _ => emit BrowserClose ;; await (close w)
       | None => mret tt
       end ;;
       emit Kill ;;
       of_outcome (kill w)) ;;
    set_queue [].

(** The hooks [rollup:before] (SSR) and [close] (SSG) both await
    [captureScreenshots]; in development mode neither is registered. *)
Definition build_hooks (dev : bool) : list (M unit) :=
  if dev then [] else [captureScreenshots; captureScreenshots].

End Capture.

(** Running hooks one after the other, as long as they return. *)
Fixpoint run_hooks (hooks : list (M unit)) (s : State) : result unit * State :=
  match hooks with
  | [] => (Val tt, s)
  | hook :: rest =>
      match hook s with
      | (Val _, s') => run_hooks rest s'
      | r => r
      end
  end.

(** The state in which a build trigger finds the closure. *)
Definition initial (q : list OgImageOptions) : State :=
  {| screenshotQueue := q; browser := None; events := []; ticks := 0 |}.

(** ** The directive helpers of [./utils] *)

(** The directive helpers [module.ts] imports from [./utils], a file that
    is not among the sources at hand.  The spec leaves the delimiters of
    the marker open ("an implementation detail"), so they are parameters
    here, and so is the parser of the payload. *)
Section Utils.
Context (marker_open marker_close : string) (parse : string -> option value).

(** Modelled from the spec: the marker the missing [./utils] looks for.
    The spec (6) has it "find [the] first occurrence" of a "uniquely
    delimited serialized-object marker"; this is the text before the
    first marker, its payload and the text after it. *)
Definition find_marker (html : string) : option (string * string * string) :=
  match indexOf marker_open html with
  | None => None
  | Some i =>
      let rest := string_drop (i + String.length marker_open) html in
      match indexOf marker_close rest with
      | None => None
      | Some j =>
          Some (string_take i html, string_take j rest,
                string_drop (j + String.length marker_close) rest)
      end
  end.

(** Modelled from the spec: [extractOgImageOptions] of the missing
    [./utils].  The spec (4.1, 6) has it "parse [the marker] as structured
    data" and "fail loudly on malformed payload"; "if no marker is found,
    [it] returns none". *)
Definition extract_directive (html : string) : outcome value :=
  match find_marker html with
  | None => Returns VUndef
  | Some (_, payload, _) =>
      match parse payload with
      | Some v => Returns v
      | None => Throws SyntaxError
      end
  end.

(** Modelled from the spec: [stripOgImageOptions] of the missing
    [./utils].  The spec (4.1) has it return "the markup with that marker
    stripped", and "the original markup unchanged" without a marker. *)
Definition strip_directive (html : string) : string :=
  match find_marker html with
  | None => html
  | Some (before, _, after) => before +:+ after
  end.

End Utils.

(** ** A small site for the examples

    Stand-ins for the externals: a marker syntax, a payload parser that
    knows the payloads used below and rejects every other one as
    malformed, and path helpers that agree with ufo and pathe on the
    paths used below. *)

Definition dquote : string := String (Ascii.ascii_of_nat 34) EmptyString.

Definition quoted (s : string) : string := dquote +:+ s +:+ dquote.

(** The payload that asks for the browser provider, as JSON. *)
Definition browser_payload : string :=
  "{" +:+ quoted "provider" +:+ ":" +:+ quoted "browser" +:+ "}".

Definition example_parse (payload : string) : option value :=
  if String.eqb payload browser_payload
  then Some (VObj {[ "provider" := VStr "browser" ]})
  else if String.eqb payload "{}" then Some (VObj ∅)
  else None.

Definition example_joinURL (base input : string) : string :=
  (if endsWith "/" base then string_take (String.length base - 1) base else base)
    +:+ "/" +:+
  (if startsWith "/" input then string_drop 1 input else input).

Definition example_relative (from to : string) : string :=
  if startsWith (from +:+ "/") to
  then string_drop (String.length from + 1) to
  else to.

Definition example_ext (rules : string -> list (gmap string value)) : Externals :=
  {| extractOgImageOptions :=
       extract_directive "<og-image-options>" "</og-image-options>" example_parse;
     stripOgImageOptions :=
       strip_directive "<og-image-options>" "</og-image-options>";
     matchAll := rules;
     joinURL := example_joinURL;
     relative := example_relative |}.

Definition example_cfg (generate : bool) : Settings :=
  {| _generate := generate;
     publicDir := "/out";
     defaults := {[ "component" := VStr "OgImageBasic";
                    "width" := VNum 1200; "height" := VNum 630 ]} |}.

(** A page whose markup carries [payload] in a marker. *)
Definition page (path payload : string) : PrerenderRoute :=
  {| route := path;
     contents :=
       Some ("<html><og-image-options>" +:+ payload
               +:+ "</og-image-options></html>");
     fileName := path +:+ "/index.html" |}.

(** A page without a directive. *)
Definition plain_page (path : string) : PrerenderRoute :=
  {| route := path;
     contents := Some "<html></html>";
     fileName := path +:+ "/index.html" |}.

Definition no_rules (route : string) : list (gmap string value) := [].


(** ** The cascade *)

(** What the loop of [_defu] makes of one key, from [baseObject[key]] and
    the copy of [defaults]. *)
Definition merged_field (b d : option value) : option value :=
  match b with
  | Some val => assign_default _defu val d
  | None => d
  end.

(** A value that is neither skipped nor merged: not [null], not
    [undefined], not an array, not an object. *)
Definition is_scalar (v : value) : bool :=
  negb (is_nullish v) && negb (isObject v).

(** The keys the loop of [_defu] skips. *)
Definition skipped_key (k : string) : bool :=
  String.eqb k "__proto__" || String.eqb k "constructor".


(** The value [og] a rule has under [ogImage] says nothing about the
    field [f]: it is missing, [null], or an object without [f]. *)
Definition override_lacks (f : string) (og : value) : bool :=
  match og with
  | VUndef | VNull => true
  | VObj _ => is_nullish (get f og)
  | _ => false
  end.

(** The object [a] holds, under [g], an object whose [f] is [v]. *)
Definition holds_field (g f : string) (v : value) (a : gmap string value) : Prop :=
  exists o, a !! g = Some (VObj o) /\ o !! f = Some v.

(** ** Reading a trace *)

(** The URLs the browser was sent to, in order. *)
Definition screenshot_urls (tr : list event) : list string :=
  omap (fun ev => match ev with Screenshot url _ => Some url | _ => None end) tr.

(** The lines of the tree report, in order. *)
Definition reports (tr : list event) : list ReportLine :=
  omap (fun ev => match ev with Report line => Some line | _ => None end) tr.

(** The errors handed to [console.error], in order. *)
Definition console_errors (tr : list event) : list error :=
  omap (fun ev => match ev with ConsoleError e => Some e | _ => None end) tr.

Definition is_spawn (ev : event) : bool :=
  match ev with Spawn _ _ => true | _ => false end.

Definition is_create (ev : event) : bool :=
  match ev with CreateBrowser => true | _ => false end.

Definition is_close (ev : event) : bool :=
  match ev with BrowserClose => true | _ => false end.

Definition is_kill (ev : event) : bool :=
  match ev with Kill => true | _ => false end.

Definition count (p : event -> bool) (tr : list event) : nat :=
  length (filter (fun ev => p ev = true) tr).

Definition throws {A} (o : outcome A) : bool :=
  match o with
  | Throws _ => true
  | Returns _ => false
  end.

Definition rejects {A} (p : promise A) : bool :=
  match p with
  | Rejected _ => true
  | _ => false
  end.

Definition is_pending {A} (p : promise A) : bool :=
  match p with
  | Pending => true
  | _ => false
  end.

(** The capture or the write of the entry of index [k] throws. *)
Definition entry_fails (w : World) (k : nat) : bool :=
  rejects (screenshot w k) || rejects (writeFile w k).

(** A call awaited for the entry of index [k] never settles: the capture,
    or after a capture that returned the [mkdirp] or the write. *)
Definition entry_hangs (w : World) (k : nat) : bool :=
  match screenshot w k with
  | Pending => true
  | Rejected _ => false
  | Resolved _ => is_pending (mkdirp w k) || is_pending (writeFile w k)
  end.

(** A call awaited in the loop over [n] entries never settles. *)
Definition loop_hangs (w : World) (n : nat) : bool :=
  existsb (entry_hangs w) (seq 0 n).

(** The setup of a batch succeeds with [host]: the server announces
    itself and a browser is launched. *)
Definition setup_succeeds (w : World) (host : string) : Prop :=
  exists announced b,
    ready w = Resolved (VStr announced) /\ host = trim announced /\
    launch w = Resolved (Some b).

(** ** The events of the loop, spelled out *)

Section Trace.
Context (ext : Externals) (cfg : Settings) (w : World).

(** The line reported for the entry of index [k] of [n], begun when [t]
    clock readings had been taken. *)
Definition entry_report (n t k : nat) (entry : OgImageOptions) : ReportLine :=
  {| failed := entry_fails w k;
     last_glyph := bool_decide (k = n - 1)%nat;
     file := relative ext (publicDir cfg) (filename_of ext cfg entry);
     generateTimeMS := clock w (S t) - clock w t;
     finished := k + 1;
     total := n |}.

(** What the body of the loop does for the entry of index [k] of [n]
    when [t] clock readings have been taken; it stops at a call that
    never settles. *)
Definition entry_events (host : string) (n t k : nat) (entry : OgImageOptions)
  : list event :=
  Screenshot (url_of host entry) (screenshot_options cfg entry)
  :: match screenshot w k with
     | Pending => []
     | Rejected e => [ConsoleError e; Report (entry_report n t k entry)]
     | Resolved imgBuffer =>
         Mkdirp (dirname_of ext cfg entry)
         :: if is_pending (mkdirp w k) then []
            else WriteFile (filename_of ext cfg entry) imgBuffer
                 :: match writeFile w k with
                    | Pending => []
                    | Rejected e => [ConsoleError e; Report (entry_report n t k entry)]
                    | Resolved _ => [Report (entry_report n t k entry)]
                    end
     end.

(** The loop stops at the first entry that hangs. *)
Fixpoint drain_events (host : string) (n t k : nat) (l : list OgImageOptions)
  : list event :=
  match l with
  | [] => []
  | entry :: l' =>
      entry_events host n t k entry
      ++ (if entry_hangs w k then []
          else drain_events host n (S (S t)) (S k) l')
  end.

Fixpoint drain_hangs (k : nat) (l : list OgImageOptions) : bool :=
  match l with
  | [] => false
  | _ :: l' => entry_hangs w k || drain_hangs (S k) l'
  end.

(** The clock readings taken when the loop stops. *)
Fixpoint drain_ticks (t k : nat) (l : list OgImageOptions) : nat :=
  match l with
  | [] => t
  | _ :: l' => if entry_hangs w k then S t else drain_ticks (S (S t)) (S k) l'
  end.

End Trace.

(** ** The events of a whole batch, spelled out *)

(** The browser the batch gets hold of, if it gets that far. *)
Definition launched (w : World) : option Browser :=
  match ready w, launch w with
  | Resolved (VStr _), Resolved b => b
  | _, _ => None
  end.

(** The setup never gets done: the readiness promise or the launch of
    the browser is never settled. *)
Definition setup_pends (w : World) : bool :=
  match ready w with
  | Pending => true
  | Resolved (VStr _) => is_pending (launch w)
  | _ => false
  end.

(** How [previewProcess.kill()] ends. *)
Definition kill_result (w : World) : result unit :=
  match kill w with
  | Returns _ => Val tt
  | Throws e => Exn e
  end.

(** How the [finally] block ends, with the browser [b]: it awaits
    [b?.close()] and then kills the server. *)
Definition release_result (w : World) (b : option Browser) : result unit :=
  match b with
  | Some _ =>
      match close w with
      | Resolved _ => kill_result w
      | Rejected e => Exn e
      | Pending => Hang
      end
  | None => kill_result w
  end.

(** The calls of the [finally] block. *)
Definition release_events (w : World) (b : option Browser) : list event :=
  match b with
  | Some _ =>
      BrowserClose :: match close w with
                      | Resolved _ => [Kill]
                      | _ => []
                      end
  | None => [Kill]
  end.

Section Batch.
Context (ext : Externals) (cfg : Settings) (w : World).

(** The batch never leaves its [try] block: the setup or a call of the
    loop is never settled. *)
Definition batch_hangs (q : list OgImageOptions) : bool :=
  setup_pends w
  || match launched w with
     | Some _ => drain_hangs w 0 q
     | None => false
     end.

(** The events of [captureScreenshots] on the non-empty queue [q], when
    [t] clock readings have been taken. *)
Definition batch_events (q : list OgImageOptions) (t : nat) : list event :=
  Spawn "npx" ["serve"; publicDir cfg]
  :: match ready w with
     | Pending => []
     | Rejected e => ConsoleError e :: release_events w None
     | Resolved (VStr announced) =>
         CreateBrowser
         :: match launch w with
            | Pending => []
            | Rejected e => ConsoleError e :: release_events w None
            | Resolved None => NoBrowser :: release_events w None
            | Resolved (Some b) =>
                PreRendering (length q)
                :: drain_events ext cfg w (trim announced) (length q) t 0 q
                ++ (if drain_hangs w 0 q then []
                    else release_events w (Some b))
            end
     | Resolved _ => ConsoleError TypeError :: release_events w None
     end.

(** How [captureScreenshots] ends on the non-empty queue [q]. *)
Definition batch_result (q : list OgImageOptions) : result unit :=
  if batch_hangs q then Hang else release_result w (launched w).

(** The state [captureScreenshots] leaves behind, from [s] with a
    non-empty queue: the queue is emptied only when the function
    returns. *)
Definition batch_state (s : State) : State :=
  {| screenshotQueue :=
       match batch_result (screenshotQueue s) with
       | Val _ => []
       | _ => screenshotQueue s
       end;
     browser := launched w;
     events := events s ++ batch_events (screenshotQueue s) (ticks s);
     ticks := match launched w with
              | Some _ => drain_ticks w (ticks s) 0 (screenshotQueue s)
              | None => ticks s
              end |}.

End Batch.

(** The error of the entry of index [k], if its capture or its write
    throws. *)
Definition entry_error (w : World) (k : nat) : option error :=
  match screenshot w k with
  | Rejected e => Some e
  | Resolved _ =>
      match writeFile w k with
      | Rejected e => Some e
      | _ => None
      end
  | Pending => None
  end.

Section Reports.
Context (ext : Externals) (cfg : Settings) (w : World).

(** The lines a loop that is not held up reports, one for each entry. *)
Fixpoint drain_reports (n t k : nat) (l : list OgImageOptions) : list ReportLine :=
  match l with
  | [] => []
  | entry :: l' =>
      entry_report ext cfg w n t k entry :: drain_reports n (S (S t)) (S k) l'
  end.

End Reports.

Section Progress.
Context (w : World).

(** How many entries the loop begins: all of them up to and with the
    first one that hangs. *)
Fixpoint drain_started (k : nat) (l : list OgImageOptions) : nat :=
  match l with
  | [] => 0
  | _ :: l' => S (if entry_hangs w k then 0 else drain_started (S k) l')
  end.

(** How many entries the loop gets through: those before the first one
    that hangs. *)
Fixpoint drain_done (k : nat) (l : list OgImageOptions) : nat :=
  match l with
  | [] => 0
  | _ :: l' => if entry_hangs w k then 0 else S (drain_done (S k) l')
  end.

End Progress.

Definition resolves {A} (p : promise A) : bool :=
  match p with
  | Resolved _ => true
  | _ => false
  end.

(** [browser.close()] is called in a batch on the queue [q]: a browser
    was launched and the [try] block is left. *)
Definition close_called (w : World) (q : list OgImageOptions) : bool :=
  match launched w with
  | Some _ => negb (batch_hangs w q)
  | None => false
  end.

(** [previewProcess.kill()] is called in a batch on the queue [q]: the
    [try] block is left and the [await] before the call returns. *)
Definition kill_called (w : World) (q : list OgImageOptions) : bool :=
  negb (batch_hangs w q)
  && match launched w with
     | Some _ => resolves (close w)
     | None => true
     end.

(** Route rules for the examples. *)

(** Every route is suppressed: [{ ogImage: false }]. *)
Definition suppress_all (route : string) : list (gmap string value) :=
  [ {[ "ogImage" := VBool false ]} ].

(** Every route gets the override
    [{ ogImage: { provider: 'browser', static: true } }]. *)
Definition override_all (route : string) : list (gmap string value) :=
  [ {[ "ogImage" := VObj {[ "provider" := VStr "browser";
                            "static" := VBool true ]} ]} ].

(** A general rule, as for [/blog/**], and a specific one, as for
    [/blog/secret]. *)
Definition general_rule : gmap string value :=
  {[ "ogImage" := VObj {[ "provider" := VStr "browser" ]};
     "prerender" := VBool true ]}.

Definition specific_rule : gmap string value :=
  {[ "ogImage" := VObj {[ "provider" := VStr "satori" ]};
     "prerender" := VBool false ]}.

Definition suppressing_rule : gmap string value :=
  {[ "ogImage" := VBool false ]}.

(** A matcher that lists the specific rule first, and one that lists it
    last. *)
Definition specific_first (route : string) : list (gmap string value) :=
  [specific_rule; general_rule].

Definition specific_last (route : string) : list (gmap string value) :=
  [general_rule; specific_rule].

(** Worlds for the examples. *)

Definition line_feed : string := String (Ascii.ascii_of_nat 10) EmptyString.

(** The server announces itself, the browser starts, every call succeeds. *)
Definition fine_world : World :=
  {| stdout := Some ["INFO: Accepting connections at http://localhost:3000"
                       +:+ line_feed];
     launch := Resolved (Some Chromium);
     screenshot := fun _ => Resolved [];
     mkdirp := fun _ => Resolved tt;
     writeFile := fun _ => Resolved tt;
     close := Resolved tt;
     kill := Returns tt;
     clock := fun n => (10 * Z.of_nat n)%Z |}.

(** As [fine_world], but the capture of the entry of index 1 throws. *)
Definition second_fails : World :=
  {| stdout := stdout fine_world;
     launch := launch fine_world;
     screenshot := fun k =>
       if (k =? 1)%nat then Rejected (Failure "navigation") else Resolved [];
     mkdirp := mkdirp fine_world;
     writeFile := writeFile fine_world;
     close := close fine_world;
     kill := kill fine_world;
     clock := clock fine_world |}.

(** The server dies after an error message, without announcing itself. *)
Definition silent_world : World :=
  {| stdout := Some ["Error: port already in use"];
     launch := launch fine_world;
     screenshot := screenshot fine_world;
     mkdirp := mkdirp fine_world;
     writeFile := writeFile fine_world;
     close := close fine_world;
     kill := kill fine_world;
     clock := clock fine_world |}.

(** As [fine_world], but [createBrowser()] returns nothing. *)
Definition no_browser_world : World :=
  {| stdout := stdout fine_world;
     launch := Resolved None;
     screenshot := screenshot fine_world;
     mkdirp := mkdirp fine_world;
     writeFile := writeFile fine_world;
     close := close fine_world;
     kill := kill fine_world;
     clock := clock fine_world |}.

(** As [fine_world], but [browser.close()] rejects. *)
Definition close_rejects : World :=
  {| stdout := stdout fine_world;
     launch := launch fine_world;
     screenshot := screenshot fine_world;
     mkdirp := mkdirp fine_world;
     writeFile := writeFile fine_world;
     close := Rejected (Failure "Protocol error: connection lost");
     kill := kill fine_world;
     clock := clock fine_world |}.

(** As [fine_world], but every capture throws. *)
Definition all_fail : World :=
  {| stdout := stdout fine_world;
     launch := launch fine_world;
     screenshot := fun _ => Rejected (Failure "navigation");
     mkdirp := mkdirp fine_world;
     writeFile := writeFile fine_world;
     close := close fine_world;
     kill := kill fine_world;
     clock := clock fine_world |}.

(** As [fine_world], but the capture of the entry of index 1 never
    settles: a hung navigation. *)
Definition second_hangs : World :=
  {| stdout := stdout fine_world;
     launch := launch fine_world;
     screenshot := fun k => if (k =? 1)%nat then Pending else Resolved [];
     mkdirp := mkdirp fine_world;
     writeFile := writeFile fine_world;
     close := close fine_world;
     kill := kill fine_world;
     clock := clock fine_world |}.

(** As [fine_world], but the server writes the marker without a space
    behind it. *)
Definition bare_marker_world : World :=
  {| stdout := Some ["starting"; "Accepting connections at" +:+ line_feed];
     launch := launch fine_world;
     screenshot := screenshot fine_world;
     mkdirp := mkdirp fine_world;
     writeFile := writeFile fine_world;
     close := close fine_world;
     kill := kill fine_world;
     clock := clock fine_world |}.

(** The queue after three pages with a browser directive. *)
Definition three_entries : list OgImageOptions :=
  prerender_pass (example_ext no_rules) (example_cfg true)
    [page "/a" browser_payload; page "/b" browser_payload;
     page "/c" browser_payload] [].

(** ** Further readings of the handler and of a trace *)

(** What [routeRules.ogImage || {}] spreads into the options. *)
Definition override_properties (ogImage : value) : gmap string value :=
  own_properties (if truthy ogImage then ogImage else VObj ∅).

(** What every entry the handler pushes looks like: it asks for the
    browser provider, in a generate run or with a set [static] flag; it
    comes from a scanned route; its context holds stripped, non-empty
    markup; and its [ctx] property is that context only. *)
Definition well_queued (ext : Externals) (cfg : Settings) (entry : OgImageOptions)
  : Prop :=
  prop "provider" entry = VStr "browser" /\
  (_generate cfg = true \/ truthy (prop "static" entry) = true) /\
  skipped_route (route (ctx entry)) = false /\
  (exists html, html <> EmptyString /\
     contents (ctx entry) = Some (stripOgImageOptions ext html)) /\
  fields entry !! "ctx" = None.

(** The files written, with their data, in order. *)
Definition writes (tr : list event) : list (string * Buffer) :=
  omap (fun ev => match ev with WriteFile f data => Some (f, data) | _ => None end) tr.

(** The directories [mkdirp] was asked for, in order. *)
Definition mkdirs (tr : list event) : list string :=
  omap (fun ev => match ev with Mkdirp d => Some d | _ => None end) tr.

(** The world [w] with another answer of [mkdirp]. *)
Definition with_mkdirp (w : World) (answer : nat -> promise unit) : World :=
  {| stdout := stdout w; launch := launch w; screenshot := screenshot w;
     mkdirp := answer; writeFile := writeFile w; close := close w;
     kill := kill w; clock := clock w |}.

(** * Properties *)

(** ** The helpers on small inputs *)

Example includes_dot :
  includes "." "/favicon.ico" = true /\ includes "." "/blog/post" = false.
Proof. by vm_compute. Qed.

Example endsWith_og_route :
  endsWith "__og_image__/html" "/blog/__og_image__/html" = true /\
  endsWith "__og_image__/html" "/html" = false.
Proof. by vm_compute. Qed.

Example replace_first_index :
  replace_first "index.html" EmptyString "/blog/index.html" = "/blog/" /\
  replace_first "index.html" EmptyString "/blog.html" = "/blog.html".
Proof. by vm_compute. Qed.

Example split_second_announcement :
  split_second "Accepting connections at "
    "INFO: Accepting connections at http://localhost:3000"
    = VStr "http://localhost:3000" /\
  split_second "Accepting connections at " "Accepting connections at" = VUndef.
Proof. by vm_compute. Qed.

Example trim_both_ends :
  trim ("  http://localhost:3000 " +:+ line_feed) = "http://localhost:3000".
Proof. by vm_compute. Qed.

Example to_js_string_array :
  to_js_string (VArr [VNum 1; VNull; VStr "a"; VArr [VNum (-3); VBool true]])
    = "1,,a,-3,true".
Proof. by vm_compute. Qed.

(** [defu]: the leftmost argument wins, objects are merged, arrays are
    concatenated, [null] is passed over. *)
Example defu_leftmost_wins :
  defu [VObj {[ "a" := VNum 1; "n" := VNull;
                "o" := VObj {[ "x" := VNum 1 ]}; "l" := VArr [VNum 1] ]};
        VObj {[ "a" := VNum 2; "n" := VNum 2; "b" := VNum 2;
                "o" := VObj {[ "x" := VNum 2; "y" := VNum 2 ]};
                "l" := VArr [VNum 2] ]}]
  = VObj {[ "a" := VNum 1; "n" := VNum 2; "b" := VNum 2;
            "o" := VObj {[ "x" := VNum 1; "y" := VNum 2 ]};
            "l" := VArr [VNum 1; VNum 2] ]}.
Proof. by vm_compute. Qed.

(** The spec's scenario A: of three pages, two carry a browser directive
    and the third, without a directive, falls under a suppressing rule. *)
Example scenario_two_of_three :
  prop "path" <$>
    prerender_pass (example_ext (fun r => if String.eqb r "/c" then suppress_all r else []))
      (example_cfg true)
      [page "/a" browser_payload; plain_page "/c"; page "/b" browser_payload] []
  = [VStr "/a"; VStr "/b"].
Proof. by vm_compute. Qed.
(** ** The handler *)

Section PrerenderFacts.
Context (ext : Externals) (cfg : Settings).

Lemma should_queue_true (options : OgImageOptions) :
  should_queue cfg options = true ->
  prop "provider" options = VStr "browser" /\
  (_generate cfg = true \/ truthy (prop "static" options) = true).
Proof.
  unfold should_queue. intros H.
  apply andb_prop in H as [Hrun Hprov]. split.
  - unfold is_string in Hprov.
    destruct (prop "provider" options); try discriminate.
    apply String.eqb_eq in Hprov. by subst.
  - apply orb_prop in Hrun. tauto.
Qed.

(** The handler leaves the queue alone or pushes one entry at its end. *)
Lemma prerender_generate_queue (ctx : PrerenderRoute) (q : list OgImageOptions) :
  queue_after (prerender_generate ext cfg ctx q) = q \/
  exists html extracted,
    contents ctx = Some html /\
    extractOgImageOptions ext html = Returns extracted /\
    truthy extracted = true /\
    is_false (get "ogImage" (routeRules ext (route ctx))) = false /\
    let options :=
      merge_options (ctx_after (prerender_generate ext cfg ctx q)) extracted
                    (get "ogImage" (routeRules ext (route ctx))) in
    should_queue cfg options = true /\
    queue_after (prerender_generate ext cfg ctx q) = q ++ [options].
Proof.
  unfold prerender_generate.
  destruct (skipped_route (route ctx)); [by left|].
  destruct (contents ctx) as [html|]; [|by left].
  destruct (String.eqb html EmptyString); [by left|].
  destruct (extractOgImageOptions ext html) as [extracted|e] eqn:Hext;
    [|by left].
  destruct (truthy extracted) eqn:Hx; [|by left].
  destruct (is_false (get "ogImage" (routeRules ext (route ctx)))) eqn:Hf;
    [by left|]. cbn [negb orb ctx_after queue_after].
  match goal with |- context [should_queue cfg ?o] =>
    destruct (should_queue cfg o) eqn:Hq end; [|by left].
  right. exists html, extracted. cbn zeta. by rewrite Hq.
Qed.

(** When extraction returns on a scanned page, the stripped markup is
    written back, whatever is decided afterwards. *)
Lemma prerender_generate_strips (ctx : PrerenderRoute) (q : list OgImageOptions)
    (html : string) (extracted : value) :
  skipped_route (route ctx) = false ->
  contents ctx = Some html ->
  html <> EmptyString ->
  extractOgImageOptions ext html = Returns extracted ->
  ctx_after (prerender_generate ext cfg ctx q) =
    {| route := route ctx;
       contents := Some (stripOgImageOptions ext html);
       fileName := fileName ctx |} /\
  completion (prerender_generate ext cfg ctx q) = Returns tt.
Proof.
  intros Hr Hc Hne Hx. unfold prerender_generate. rewrite Hr, Hc.
  destruct (String.eqb_spec html EmptyString) as [->|_]; [done|].
  rewrite Hx.
  by destruct (negb (truthy extracted)
               || is_false (get "ogImage" (routeRules ext (route ctx)))).
Qed.

End PrerenderFacts.

(** ** The cascade: how [_defu] treats one key *)

Lemma keep_key_lookup_ne (k k' : string) (object result : gmap string value) :
  k <> k' -> keep_key k object result !! k' = result !! k'.
Proof.
  intros Hne. unfold keep_key.
  destruct (object !! k); [by rewrite lookup_insert_ne|by rewrite lookup_delete_ne].
Qed.

Lemma skipped_key_false (k : string) :
  skipped_key k = false -> "__proto__" <> k /\ "constructor" <> k.
Proof.
  unfold skipped_key. intros H. apply orb_false_elim in H as [H1 H2].
  apply String.eqb_neq in H1, H2. split; congruence.
Qed.

Lemma _defu_object (base : gmap string value) (d : value) :
  exists m, _defu (VObj base) d = VObj m /\
    forall k, skipped_key k = false ->
      m !! k = merged_field (base !! k) (defaults_copy d !! k).
Proof.
  eexists. split; [reflexivity|]. intros k Hk.
  apply skipped_key_false in Hk as [H1 H2].
  rewrite !keep_key_lookup_ne, lookup_merge by done.
  unfold merged_field.
  by destruct (base !! k), (defaults_copy d !! k).
Qed.

Lemma merged_field_scalar (v : value) (d : option value) :
  is_scalar v = true -> merged_field (Some v) d = Some v.
Proof.
  unfold is_scalar, merged_field, assign_default. intros H.
  apply andb_prop in H as [Hn Ho].
  destruct (is_nullish v); [done|]. destruct (isObject v) eqn:E; [done|].
  destruct v, d as [[]|]; simpl in *; congruence.
Qed.

Lemma merged_field_nullish (b d : option value) :
  is_nullish (default VUndef b) = true -> merged_field b d = d.
Proof.
  destruct b as [v|]; [|done]. simpl. unfold assign_default. by intros ->.
Qed.

(** ** The cascade: a key through the whole reduction *)

Section Reduce.
Context (k : string) (Hk : skipped_key k = false).

(** Once the accumulator holds a scalar under [k], no later argument
    changes it. *)
Lemma reduce_keeps_scalar (rs : list (gmap string value))
    (a : gmap string value) (v : value) :
  a !! k = Some v -> is_scalar v = true ->
  get k (foldl _defu (VObj a) (VObj <$> rs)) = v.
Proof.
  revert a. induction rs as [|r rs IH]; intros a Ha Hv.
  - simpl. by rewrite Ha.
  - cbn [fmap list_fmap foldl].
    destruct (_defu_object a (VObj r)) as (m & -> & Hm).
    apply IH; [|done]. by rewrite Hm, Ha, merged_field_scalar.
Qed.

(** While the accumulator holds nothing under [k], the arguments that
    hold nothing there either are passed over, and the first one that
    holds a scalar decides. *)
Lemma reduce_first_scalar (pre post : list (gmap string value))
    (a r : gmap string value) (v : value) :
  is_nullish (get k (VObj a)) = true ->
  Forall (fun r' => is_nullish (get k (VObj r')) = true) pre ->
  get k (VObj r) = v -> is_scalar v = true ->
  get k (foldl _defu (VObj a) (VObj <$> (pre ++ r :: post))) = v.
Proof.
  intros Ha Hpre Hr Hv. revert a Ha.
  induction Hpre as [|r' pre Hr' _ IH]; intros a Ha.
  - cbn [app fmap list_fmap foldl].
    destruct (_defu_object a (VObj r)) as (m & -> & Hm).
    apply reduce_keeps_scalar; [|done].
    rewrite Hm by done. rewrite merged_field_nullish by done.
    cbn [defaults_copy isObject own_properties].
    cbn [get] in Hr. destruct (r !! k) as [x|]; simpl in Hr; subst; [done|].
    discriminate Hv.
  - cbn [app fmap list_fmap foldl].
    destruct (_defu_object a (VObj r')) as (m & -> & Hm).
    apply IH. cbn [get]. rewrite Hm by done.
    by rewrite merged_field_nullish.
Qed.

End Reduce.

(** In [defu({}, ...matches.reverse())] the last match that holds a
    scalar under [k] decides [k]. *)
Lemma routeRules_last_match (ext : Externals) (path k : string)
    (before after : list (gmap string value)) (r : gmap string value) (v : value) :
  matchAll ext path = before ++ r :: after ->
  skipped_key k = false ->
  Forall (fun r' => is_nullish (get k (VObj r')) = true) after ->
  get k (VObj r) = v -> is_scalar v = true ->
  get k (routeRules ext path) = v.
Proof.
  intros Hm Hk Hafter Hr Hv. unfold routeRules, defu. rewrite Hm.
  rewrite reverse_app, reverse_cons, <- app_assoc. cbn [app].
  change (VObj ∅ :: (VObj <$> reverse after ++ r :: reverse before))
    with (VObj <$> ((∅ :: reverse after) ++ r :: reverse before)).
  apply reduce_first_scalar; try done.
  constructor; [done|]. by apply Forall_reverse.
Qed.

(** ** The cascade: a field of a nested object *)

Section Nested.
Context (g f : string) (Hg : skipped_key g = false) (Hf : skipped_key f = false).
Context (v : value) (Hv : is_scalar v = true).

#[local] Abbreviation holds := (holds_field g f v).

Lemma step_lacks (a r m : gmap string value) :
  override_lacks f (get g (VObj a)) = true ->
  override_lacks f (get g (VObj r)) = true ->
  (forall k, skipped_key k = false ->
     m !! k = merged_field (a !! k) (defaults_copy (VObj r) !! k)) ->
  override_lacks f (get g (VObj m)) = true.
Proof.
  intros Ha Hr Hm. cbn [get] in *. rewrite Hm by done.
  cbn [defaults_copy isObject own_properties].
  destruct (a !! g) as [x|]; [|done]. cbn [default from_option id] in Ha.
  destruct x; try done. cbn [merged_field assign_default is_nullish].
  destruct (r !! g) as [d|]; [|done]. cbn [default from_option id] in Hr.
  destruct d; try done. cbn [isObject andb default from_option id].
  destruct (_defu_object o (VObj o0)) as (m' & -> & Hm').
  cbn [override_lacks get default from_option id] in *. rewrite Hm' by done.
  by rewrite merged_field_nullish.
Qed.

Lemma step_wins (a r m o : gmap string value) :
  override_lacks f (get g (VObj a)) = true ->
  r !! g = Some (VObj o) -> o !! f = Some v ->
  (forall k, skipped_key k = false ->
     m !! k = merged_field (a !! k) (defaults_copy (VObj r) !! k)) ->
  holds m.
Proof.
  intros Ha Hr Ho Hm. unfold holds_field. rewrite Hm by done.
  cbn [defaults_copy isObject own_properties]. rewrite Hr.
  cbn [get] in Ha.
  destruct (a !! g) as [x|]; [|by exists o]. cbn [default from_option id] in Ha.
  destruct x; try done; try by exists o.
  cbn [merged_field assign_default is_nullish isObject andb].
  destruct (_defu_object o0 (VObj o)) as (m' & -> & Hm').
  exists m'. split; [done|]. rewrite Hm' by done.
  cbn [override_lacks get default from_option id] in Ha.
  by rewrite merged_field_nullish.
Qed.

Lemma step_holds (a m : gmap string value) (d : value) :
  holds a ->
  (forall k, skipped_key k = false ->
     m !! k = merged_field (a !! k) (defaults_copy d !! k)) ->
  holds m.
Proof.
  intros (o & Ha & Ho) Hm. unfold holds_field. rewrite Hm, Ha by done.
  cbn [merged_field assign_default is_nullish].
  destruct (defaults_copy d !! g) as [x|]; [|by exists o].
  cbn [isObject andb]. destruct (isObject x); [|by exists o].
  destruct (_defu_object o x) as (m' & -> & Hm').
  exists m'. split; [done|]. by rewrite Hm', Ho, merged_field_scalar.
Qed.

Lemma reduce_holds (rs : list (gmap string value)) (a : gmap string value) :
  holds a -> get f (get g (foldl _defu (VObj a) (VObj <$> rs))) = v.
Proof.
  revert a. induction rs as [|r rs IH]; intros a Ha.
  - destruct Ha as (o & Ha & Ho). simpl. by rewrite Ha; simpl; rewrite Ho.
  - cbn [fmap list_fmap foldl].
    destruct (_defu_object a (VObj r)) as (m & -> & Hm).
    apply IH. exact (step_holds a m (VObj r) Ha Hm).
Qed.

Lemma reduce_first_override (pre post : list (gmap string value))
    (a r o : gmap string value) :
  override_lacks f (get g (VObj a)) = true ->
  Forall (fun r' => override_lacks f (get g (VObj r')) = true) pre ->
  r !! g = Some (VObj o) -> o !! f = Some v ->
  get f (get g (foldl _defu (VObj a) (VObj <$> (pre ++ r :: post)))) = v.
Proof.
  intros Ha Hpre Hr Ho. revert a Ha.
  induction Hpre as [|r' pre Hr' _ IH]; intros a Ha.
  - cbn [app fmap list_fmap foldl].
    destruct (_defu_object a (VObj r)) as (m & -> & Hm).
    apply reduce_holds. exact (step_wins a r m o Ha Hr Ho Hm).
  - cbn [app fmap list_fmap foldl].
    destruct (_defu_object a (VObj r')) as (m & -> & Hm).
    apply IH. exact (step_lacks a r' m Ha Hr' Hm).
Qed.

End Nested.

(** The same one level down: the last match whose [ogImage] is an object
    with a scalar under [f] decides [ogImage.f], as long as every later
    match leaves [f] alone. *)
Lemma routeRules_last_override (ext : Externals) (path f : string)
    (before after : list (gmap string value)) (r o : gmap string value)
    (v : value) :
  matchAll ext path = before ++ r :: after ->
  skipped_key f = false ->
  Forall (fun r' => override_lacks f (get "ogImage" (VObj r')) = true) after ->
  r !! "ogImage" = Some (VObj o) -> get f (VObj o) = v -> is_scalar v = true ->
  get f (get "ogImage" (routeRules ext path)) = v.
Proof.
  intros Hm Hf Hafter Hr Ho Hv. unfold routeRules, defu. rewrite Hm.
  rewrite reverse_app, reverse_cons, <- app_assoc. cbn [app].
  change (VObj ∅ :: (VObj <$> reverse after ++ r :: reverse before))
    with (VObj <$> ((∅ :: reverse after) ++ r :: reverse before)).
  eapply reduce_first_override; try done.
  - constructor; [done|]. by apply Forall_reverse.
  - cbn [get] in Ho. destruct (o !! f) as [x|]; simpl in Ho; subst; [done|].
    discriminate Hv.
Qed.

(** ** The loop over the queue *)

Section CaptureFacts.
Context (ext : Externals) (cfg : Settings) (w : World).

Lemma capture_entry_run (host : string) (n k : nat) (entry : OgImageOptions)
    (s : State) :
  capture_entry ext cfg w host n k entry s =
    (if entry_hangs w k then Hang else Val tt,
     {| screenshotQueue := screenshotQueue s; browser := browser s;
        events := events s ++ entry_events ext cfg w host n (ticks s) k entry;
        ticks := if entry_hangs w k then S (ticks s) else S (S (ticks s)) |}).
Proof.
  unfold capture_entry, entry_events, entry_report, entry_fails, entry_hangs,
    rejects, is_pending.
  unfold mbind, M_bind, Date_now, try_catch, emit, await, mret, M_ret, throw, never.
  cbn [screenshotQueue browser events ticks].
  destruct (screenshot w k) as [img|e|]; cbn [orb].
  - destruct (mkdirp w k), (writeFile w k);
      cbn [screenshotQueue browser events ticks orb];
      repeat rewrite <- app_assoc; reflexivity.
  - cbn [screenshotQueue browser events ticks].
    repeat rewrite <- app_assoc. reflexivity.
  - reflexivity.
Qed.

Lemma for_in_run (host : string) (n : nat) (l : list OgImageOptions)
    (k : nat) (s : State) :
  for_in k l (capture_entry ext cfg w host n) s =
    (if drain_hangs w k l then Hang else Val tt,
     {| screenshotQueue := screenshotQueue s; browser := browser s;
        events := events s ++ drain_events ext cfg w host n (ticks s) k l;
        ticks := drain_ticks w (ticks s) k l |}).
Proof.
  revert k s. induction l as [|entry l IH]; intros k s.
  - cbn. rewrite app_nil_r. by destruct s.
  - cbn [for_in drain_events drain_hangs drain_ticks].
    unfold mbind at 1, M_bind at 1. rewrite capture_entry_run.
    destruct (entry_hangs w k); cbn [orb].
    + by rewrite app_nil_r.
    + rewrite IH. cbn [screenshotQueue browser events ticks].
      by rewrite <- app_assoc.
Qed.

Lemma drain_hangs_seq (l : list OgImageOptions) (k : nat) :
  drain_hangs w k l = existsb (entry_hangs w) (seq k (length l)).
Proof.
  revert k. induction l as [|entry l IH]; intros k; [done|].
  cbn [drain_hangs length seq existsb]. by rewrite IH.
Qed.

Lemma drain_hangs_loop (q : list OgImageOptions) :
  drain_hangs w 0 q = loop_hangs w (length q).
Proof. apply drain_hangs_seq. Qed.

End CaptureFacts.

(** ** The whole batch *)

Section BatchFacts.
Context (ext : Externals) (cfg : Settings) (w : World).

Lemma captureScreenshots_empty (s : State) :
  screenshotQueue s = [] -> captureScreenshots ext cfg w s = (Val tt, s).
Proof.
  intros Hq. unfold captureScreenshots, get_queue, mbind, M_bind.
  by rewrite Hq.
Qed.

Lemma captureScreenshots_run (s : State) :
  screenshotQueue s <> [] ->
  captureScreenshots ext cfg w s =
    (batch_result w (screenshotQueue s), batch_state ext cfg w s).
Proof.
  intros Hq. unfold captureScreenshots, batch_state, batch_result, batch_hangs,
    batch_events, setup_pends, launched, release_result, release_events,
    kill_result, is_pending.
  unfold get_queue. unfold mbind at 1, M_bind at 1.
  destruct (screenshotQueue s) as [|entry q] eqn:Eq; [done|].
  rewrite bool_decide_false by done.
  unfold try_finally, try_catch, createBrowser, await, js_trim.
  unfold mbind, M_bind, emit, set_browser, get_browser, set_queue,
    of_outcome, mret, M_ret, throw, never.
  cbn [screenshotQueue browser events ticks].
  destruct (ready w) as [[]|e|]; cbn [screenshotQueue browser events ticks orb];
    try (destruct (kill w); cbn [screenshotQueue browser events ticks];
         repeat rewrite <- app_assoc; rewrite ?Eq; reflexivity).
  destruct (launch w) as [[b|]|e|];
    cbn [screenshotQueue browser events ticks orb];
    try (destruct (kill w); cbn [screenshotQueue browser events ticks];
         repeat rewrite <- app_assoc; rewrite ?Eq; reflexivity).
  fold (@mbind M _ unit unit).
  rewrite for_in_run. cbn [screenshotQueue browser events ticks].
  destruct (drain_hangs w 0 (entry :: q));
    cbn [screenshotQueue browser events ticks].
  { rewrite app_nil_r, Eq. repeat rewrite <- app_assoc. reflexivity. }
  destruct (close w); [destruct (kill w)| |];
    cbn [screenshotQueue browser events ticks];
    repeat rewrite <- app_assoc; rewrite ?Eq; reflexivity.
Qed.

End BatchFacts.

(** ** Reading the events of the loop *)

Lemma count_app (p : event -> bool) (l1 l2 : list event) :
  count p (l1 ++ l2) = (count p l1 + count p l2)%nat.
Proof. unfold count. by rewrite filter_app, length_app. Qed.

Lemma count_zero_elem (p : event -> bool) (l : list event) (ev : event) :
  count p l = 0%nat -> ev ∈ l -> p ev = false.
Proof.
  unfold count. intros Hc Hin.
  destruct (p ev) eqn:Hp; [|done].
  assert (ev ∈ filter (fun ev => p ev = true) l) as Hf
    by (apply list_elem_of_filter; done).
  apply nil_length_inv in Hc. rewrite Hc in Hf. by apply elem_of_nil in Hf.
Qed.

Lemma take_prefix {A} (m : nat) (l : list A) : take m l `prefix_of` l.
Proof. exists (drop m l). by rewrite take_drop. Qed.

Section TraceFacts.
Context (ext : Externals) (cfg : Settings) (w : World).

Lemma entry_events_urls host n t k entry :
  screenshot_urls (entry_events ext cfg w host n t k entry) = [url_of host entry].
Proof.
  unfold entry_events, screenshot_urls.
  destruct (screenshot w k); [destruct (mkdirp w k), (writeFile w k)| |];
    reflexivity.
Qed.

Lemma entry_events_reports host n t k entry :
  reports (entry_events ext cfg w host n t k entry) =
    if entry_hangs w k then [] else [entry_report ext cfg w n t k entry].
Proof.
  unfold entry_events, reports, entry_hangs.
  destruct (screenshot w k); [destruct (mkdirp w k), (writeFile w k)| |];
    reflexivity.
Qed.

Lemma entry_events_errors host n t k entry :
  console_errors (entry_events ext cfg w host n t k entry) =
    if entry_hangs w k then [] else option_list (entry_error w k).
Proof.
  unfold entry_events, console_errors, entry_error, entry_hangs.
  destruct (screenshot w k); [destruct (mkdirp w k), (writeFile w k)| |];
    reflexivity.
Qed.

Lemma entry_events_count (p : event -> bool) host n t k entry :
  (forall url o, p (Screenshot url o) = false) ->
  (forall d, p (Mkdirp d) = false) ->
  (forall f b, p (WriteFile f b) = false) ->
  (forall e, p (ConsoleError e) = false) ->
  (forall line, p (Report line) = false) ->
  count p (entry_events ext cfg w host n t k entry) = 0%nat.
Proof.
  intros H1 H2 H3 H4 H5. unfold entry_events, count.
  destruct (screenshot w k); [destruct (mkdirp w k), (writeFile w k)| |];
    cbn [app is_pending];
    repeat (rewrite filter_cons_False by (rewrite ?H1, ?H2, ?H3, ?H4, ?H5; done));
    done.
Qed.

Lemma drain_events_urls host n l : forall t k,
  screenshot_urls (drain_events ext cfg w host n t k l)
    = url_of host <$> take (drain_started w k l) l.
Proof.
  induction l as [|entry l IH]; intros t k; [done|].
  cbn [drain_events drain_started take fmap list_fmap].
  unfold screenshot_urls in *. rewrite omap_app.
  fold (screenshot_urls (entry_events ext cfg w host n t k entry)).
  rewrite entry_events_urls. cbn [app]. f_equal.
  destruct (entry_hangs w k); [by rewrite take_0|apply IH].
Qed.

Lemma drain_events_reports host n l : forall t k,
  reports (drain_events ext cfg w host n t k l)
    = take (drain_done w k l) (drain_reports ext cfg w n t k l).
Proof.
  induction l as [|entry l IH]; intros t k; [done|].
  cbn [drain_events drain_done drain_reports].
  unfold reports in *. rewrite omap_app.
  fold (reports (entry_events ext cfg w host n t k entry)).
  rewrite entry_events_reports.
  destruct (entry_hangs w k); [done|]. cbn [app take]. f_equal. apply IH.
Qed.

Lemma drain_events_errors host n l : forall t k,
  console_errors (drain_events ext cfg w host n t k l)
    = omap (entry_error w) (seq k (drain_done w k l)).
Proof.
  induction l as [|entry l IH]; intros t k; [done|].
  cbn [drain_events drain_done]. unfold console_errors in *.
  rewrite omap_app.
  fold (console_errors (entry_events ext cfg w host n t k entry)).
  rewrite entry_events_errors.
  destruct (entry_hangs w k); [done|].
  cbn [seq omap list_omap]. rewrite IH. by destruct (entry_error w k).
Qed.

Lemma drain_events_count (p : event -> bool) host n l : forall t k,
  (forall url o, p (Screenshot url o) = false) ->
  (forall d, p (Mkdirp d) = false) ->
  (forall f b, p (WriteFile f b) = false) ->
  (forall e, p (ConsoleError e) = false) ->
  (forall line, p (Report line) = false) ->
  count p (drain_events ext cfg w host n t k l) = 0%nat.
Proof.
  intros t k H1 H2 H3 H4 H5. revert t k.
  induction l as [|entry l IH]; intros t k; [done|].
  cbn [drain_events]. rewrite count_app, entry_events_count by done.
  destruct (entry_hangs w k); [done|]. by rewrite IH.
Qed.

(** How far the loop gets. *)

Lemma drain_done_started (l : list OgImageOptions) : forall k,
  (drain_done w k l <= drain_started w k l <= S (drain_done w k l))%nat /\
  (drain_started w k l <= length l)%nat.
Proof.
  induction l as [|entry l IH]; intros k; cbn [drain_done drain_started length];
    [lia|].
  destruct (entry_hangs w k); [lia|]. specialize (IH (S k)). lia.
Qed.

Lemma drain_all (l : list OgImageOptions) : forall k,
  drain_hangs w k l = false ->
  drain_started w k l = length l /\ drain_done w k l = length l.
Proof.
  induction l as [|entry l IH]; intros k; cbn [drain_hangs drain_done drain_started length];
    [done|].
  intros [Hk Hl]%orb_false_iff. rewrite Hk.
  destruct (IH (S k) Hl) as [-> ->]. done.
Qed.

Lemma drain_first_hang (l : list OgImageOptions) : forall k j,
  (j < length l)%nat ->
  entry_hangs w (k + j) = true ->
  (forall i, (i < j)%nat -> entry_hangs w (k + i) = false) ->
  drain_hangs w k l = true /\ drain_started w k l = S j /\ drain_done w k l = j.
Proof.
  induction l as [|entry l IH]; intros k j Hj Hhang Hbefore;
    cbn [length] in Hj; [lia|].
  cbn [drain_hangs drain_started drain_done].
  destruct j as [|j].
  - replace (k + 0)%nat with k in Hhang by lia. by rewrite Hhang.
  - pose proof (Hbefore 0%nat ltac:(lia)) as H0.
    replace (k + 0)%nat with k in H0 by lia. rewrite H0. cbn [orb].
    destruct (IH (S k) j) as (-> & -> & ->); [lia| | |done].
    + by replace (S k + j)%nat with (k + S j)%nat by lia.
    + intros i Hi. replace (S k + i)%nat with (k + S i)%nat by lia.
      apply Hbefore. lia.
Qed.

(** The lines of a loop that is not held up. *)

Lemma drain_reports_length n l : forall t k,
  length (drain_reports ext cfg w n t k l) = length l.
Proof.
  induction l as [|entry l IH]; intros t k; [done|].
  cbn [drain_reports length]. by rewrite IH.
Qed.

Lemma drain_reports_fields n l : forall t k,
  failed <$> drain_reports ext cfg w n t k l = entry_fails w <$> seq k (length l) /\
  file <$> drain_reports ext cfg w n t k l
    = (fun entry => relative ext (publicDir cfg) (filename_of ext cfg entry)) <$> l /\
  finished <$> drain_reports ext cfg w n t k l = seq (k + 1) (length l) /\
  total <$> drain_reports ext cfg w n t k l = replicate (length l) n /\
  last_glyph <$> drain_reports ext cfg w n t k l
    = (fun i => bool_decide (i = n - 1)%nat) <$> seq k (length l).
Proof.
  induction l as [|entry l IH]; intros t k; [done|].
  destruct (IH (S (S t)) (S k)) as (IH1 & IH2 & IH3 & IH4 & IH5).
  cbn [drain_reports fmap list_fmap length seq replicate].
  fold (@fmap list _ _ _ failed). fold (@fmap list _ _ _ file).
  fold (@fmap list _ _ _ finished). fold (@fmap list _ _ _ total).
  fold (@fmap list _ _ _ last_glyph).
  rewrite IH1, IH2, IH3, IH4, IH5. cbn [entry_report failed file finished total last_glyph].
  by replace (S k + 1)%nat with (S (k + 1)) by lia.
Qed.

Lemma drain_reports_time n l : forall t k,
  generateTimeMS <$> drain_reports ext cfg w n t k l
    = (fun i => clock w (S (t + 2 * i)) - clock w (t + 2 * i))%Z
        <$> seq 0 (length l).
Proof.
  induction l as [|entry l IH]; intros t k; [done|].
  cbn [drain_reports fmap list_fmap length seq].
  fold (@fmap list _ _ _ generateTimeMS). rewrite IH.
  cbn [entry_report generateTimeMS].
  replace (t + 2 * 0)%nat with t by lia. f_equal.
  rewrite <- fmap_S_seq, <- list_fmap_compose.
  apply list_fmap_ext. intros _ i _. cbn [compose].
  by replace (S (S t) + 2 * i)%nat with (t + 2 * S i)%nat by lia.
Qed.

(** The lines the loop reports, field by field. *)
Lemma drain_events_fields host n l t k :
  let lines := reports (drain_events ext cfg w host n t k l) in
  let m := drain_done w k l in
  length lines = m /\
  failed <$> lines = entry_fails w <$> seq k m /\
  file <$> lines
    = (fun entry => relative ext (publicDir cfg) (filename_of ext cfg entry))
        <$> take m l /\
  finished <$> lines = seq (k + 1) m /\
  total <$> lines = replicate m n /\
  last_glyph <$> lines = (fun i => bool_decide (i = n - 1)%nat) <$> seq k m /\
  generateTimeMS <$> lines
    = (fun i => clock w (S (t + 2 * i)) - clock w (t + 2 * i))%Z <$> seq 0 m.
Proof.
  cbn zeta. rewrite drain_events_reports.
  destruct (drain_done_started l k) as [[Hle _] Hlen].
  assert (drain_done w k l <= length l)%nat as Hm by lia.
  destruct (drain_reports_fields n l t k) as (H1 & H2 & H3 & H4 & H5).
  rewrite !fmap_take, H1, H2, H3, H4, H5, drain_reports_time.
  rewrite length_take, drain_reports_length, <- !fmap_take, !take_seq,
    take_replicate.
  by rewrite !Nat.min_l by lia.
Qed.

End TraceFacts.

(** ** The readiness promise *)

Lemma on_data_never_rejects (chunks : list string) (e : error) :
  on_data chunks <> Rejected e.
Proof.
  induction chunks as [|data rest IH]; cbn [on_data]; [done|].
  by destruct (includes "Accepting connections at" data).
Qed.

Lemma on_data_first (pre post : list string) (data : string) :
  Forall (fun chunk => includes "Accepting connections at" chunk = false) pre ->
  includes "Accepting connections at" data = true ->
  on_data (pre ++ data :: post)
    = Resolved (split_second "Accepting connections at " data).
Proof.
  intros Hpre Hdata. induction Hpre as [|chunk pre Hchunk _ IH]; cbn [app on_data].
  - by rewrite Hdata.
  - by rewrite Hchunk.
Qed.

Lemma on_data_silent (chunks : list string) :
  Forall (fun chunk => includes "Accepting connections at" chunk = false) chunks ->
  on_data chunks = Pending.
Proof.
  intros H. induction H as [|chunk chunks Hchunk _ IH]; cbn [on_data]; [done|].
  by rewrite Hchunk.
Qed.

(** ** A batch from the initial state *)

Section RunFacts.
Context (ext : Externals) (cfg : Settings) (w : World).

Lemma run_initial (q : list OgImageOptions) :
  q <> [] ->
  captureScreenshots ext cfg w (initial q) =
    (batch_result w q,
     {| screenshotQueue := match batch_result w q with Val _ => [] | _ => q end;
        browser := launched w;
        events := batch_events ext cfg w q 0;
        ticks := match launched w with
                 | Some _ => drain_ticks w 0 0 q
                 | None => 0
                 end |}).
Proof. intros Hq. by rewrite captureScreenshots_run. Qed.

Lemma setup_launched (host : string) :
  setup_succeeds w host ->
  exists b, launched w = Some b /\ setup_pends w = false.
Proof.
  intros (announced & b & Hready & -> & Hlaunch). exists b.
  unfold launched, setup_pends. by rewrite Hready, Hlaunch.
Qed.

Lemma launched_setup (b : Browser) :
  launched w = Some b -> exists host, setup_succeeds w host.
Proof.
  unfold launched. intros Hb.
  destruct (ready w) as [[| | | |announced| |]|e|] eqn:Hr; try done.
  destruct (launch w) as [[b'|]|e|] eqn:Hl; try done.
  exists (trim announced), announced, b'. by rewrite Hl.
Qed.

Lemma batch_hangs_setup (q : list OgImageOptions) (host : string) :
  setup_succeeds w host -> batch_hangs w q = loop_hangs w (length q).
Proof.
  intros (b & Hb & Hp)%setup_launched. unfold batch_hangs.
  by rewrite Hb, Hp, drain_hangs_loop.
Qed.

Lemma batch_events_setup (q : list OgImageOptions) (t : nat) (host : string) :
  setup_succeeds w host ->
  batch_events ext cfg w q t =
    [Spawn "npx" ["serve"; publicDir cfg]; CreateBrowser; PreRendering (length q)]
    ++ drain_events ext cfg w host (length q) t 0 q
    ++ (if loop_hangs w (length q) then [] else release_events w (launched w)).
Proof.
  intros (announced & b & Hready & -> & Hlaunch).
  unfold batch_events, launched. by rewrite Hready, Hlaunch, drain_hangs_loop.
Qed.

(** The events of a batch whose setup succeeds, read through a
    projection that ignores the setup and the release. *)
Lemma batch_events_projection {A} (f : event -> option A)
    (q : list OgImageOptions) (t : nat) (host : string) :
  setup_succeeds w host ->
  f (Spawn "npx" ["serve"; publicDir cfg]) = None -> f CreateBrowser = None ->
  f (PreRendering (length q)) = None -> f BrowserClose = None -> f Kill = None ->
  omap f (batch_events ext cfg w q t)
    = omap f (drain_events ext cfg w host (length q) t 0 q).
Proof.
  intros Hsetup H1 H2 H3 H4 H5. rewrite (batch_events_setup q t host Hsetup).
  rewrite !omap_app. cbn [omap list_omap]. rewrite H1, H2, H3. cbn [app].
  replace (omap f (if loop_hangs w (length q) then []
                   else release_events w (launched w))) with (@nil A).
  - by rewrite app_nil_r.
  - destruct (loop_hangs w (length q)); [done|].
    unfold release_events.
    destruct (launched w); [destruct (close w)|]; cbn [omap list_omap];
      by rewrite ?H4, ?H5.
Qed.

Lemma batch_projection {A} (f : event -> option A) (q : list OgImageOptions)
    (host : string) :
  q <> [] ->
  setup_succeeds w host ->
  f (Spawn "npx" ["serve"; publicDir cfg]) = None -> f CreateBrowser = None ->
  f (PreRendering (length q)) = None -> f BrowserClose = None -> f Kill = None ->
  omap f (events (captureScreenshots ext cfg w (initial q)).2)
    = omap f (drain_events ext cfg w host (length q) 0 0 q).
Proof.
  intros Hq Hsetup H1 H2 H3 H4 H5. rewrite run_initial by done.
  cbn [snd events]. by apply batch_events_projection.
Qed.

(** Without a browser nothing is captured and nothing is reported. *)
Lemma batch_events_no_browser (q : list OgImageOptions) (t : nat) :
  launched w = None ->
  screenshot_urls (batch_events ext cfg w q t) = [] /\
  reports (batch_events ext cfg w q t) = [].
Proof.
  unfold launched, batch_events.
  destruct (ready w) as [[]|e|]; try done.
  by destruct (launch w) as [[b|]|e|].
Qed.

Lemma setup_fails_no_browser :
  (forall host, ~ setup_succeeds w host) -> launched w = None.
Proof.
  intros Hno. destruct (launched w) as [b|] eqn:Hb; [|done].
  destruct (launched_setup b Hb) as [host Hsetup]. by destruct (Hno host).
Qed.

Lemma release_events_count (b : option Browser) :
  count is_spawn (release_events w b) = 0%nat /\
  count is_create (release_events w b) = 0%nat /\
  count is_close (release_events w b)
    = (match b with Some _ => 1 | None => 0 end)%nat /\
  count is_kill (release_events w b)
    = (match b with
       | Some _ => if resolves (close w) then 1 else 0
       | None => 1
       end)%nat.
Proof.
  unfold release_events. destruct b; [destruct (close w)|]; by vm_compute.
Qed.

(** The events of a batch: the spawn, a body that releases nothing, and
    the release if the [try] block is left. *)
Lemma batch_events_shape (q : list OgImageOptions) (t : nat) :
  exists body,
    batch_events ext cfg w q t =
      Spawn "npx" ["serve"; publicDir cfg]
      :: body ++ (if batch_hangs w q then [] else release_events w (launched w)) /\
    count is_spawn body = 0%nat /\ count is_close body = 0%nat /\
    count is_kill body = 0%nat /\ (count is_create body <= 1)%nat /\
    (launched w <> None -> count is_create body = 1%nat).
Proof.
  unfold batch_events, batch_hangs, setup_pends, launched.
  destruct (ready w) as [[| | | |announced| |]|e|];
    try (by exists [ConsoleError TypeError]; repeat split; auto);
    try (by exists [ConsoleError e]; repeat split; auto);
    try (by exists []; repeat split; auto).
  destruct (launch w) as [[b|]|e|]; cbn [is_pending orb].
  - exists (CreateBrowser :: PreRendering (length q)
            :: drain_events ext cfg w (trim announced) (length q) t 0 q).
    split; [by rewrite <- !app_comm_cons|].
    assert (forall p, p CreateBrowser = false -> p (PreRendering (length q)) = false ->
              (forall url o, p (Screenshot url o) = false) ->
              (forall d, p (Mkdirp d) = false) ->
              (forall f b, p (WriteFile f b) = false) ->
              (forall e, p (ConsoleError e) = false) ->
              (forall line, p (Report line) = false) ->
              count p (CreateBrowser :: PreRendering (length q)
                 :: drain_events ext cfg w (trim announced) (length q) t 0 q) = 0%nat)
      as Hzero.
    { intros p H1 H2 H3 H4 H5 H6 H7.
      change (count p ([CreateBrowser; PreRendering (length q)]
                ++ drain_events ext cfg w (trim announced) (length q) t 0 q) = 0%nat).
      rewrite count_app, drain_events_count by done.
      unfold count. by rewrite !filter_cons_False by (rewrite ?H1, ?H2; done). }
    assert (count is_create (CreateBrowser :: PreRendering (length q)
              :: drain_events ext cfg w (trim announced) (length q) t 0 q) = 1%nat)
      as Hone.
    { change (count is_create ([CreateBrowser; PreRendering (length q)]
                ++ drain_events ext cfg w (trim announced) (length q) t 0 q) = 1%nat).
      by rewrite count_app, drain_events_count. }
    rewrite !Hzero, Hone by done. repeat split; auto.
  - exists [CreateBrowser; NoBrowser]. by repeat split; auto.
  - exists [CreateBrowser; ConsoleError e]. by repeat split; auto.
  - exists [CreateBrowser]. by repeat split; auto.
Qed.

(** What a batch calls, counted. *)
Lemma batch_events_counts (q : list OgImageOptions) (t : nat) :
  let tr := batch_events ext cfg w q t in
  count is_spawn tr = 1%nat /\
  (count is_create tr <= 1)%nat /\
  (launched w <> None -> count is_create tr = 1%nat) /\
  count is_close tr = (if close_called w q then 1 else 0)%nat /\
  count is_kill tr = (if kill_called w q then 1 else 0)%nat.
Proof.
  cbn zeta. destruct (batch_events_shape q t)
    as (body & -> & Hspawn & Hclose & Hkill & Hcreate & Hlaunch).
  change (Spawn "npx" ["serve"; publicDir cfg]
          :: body ++ (if batch_hangs w q then [] else release_events w (launched w)))
    with ([Spawn "npx" ["serve"; publicDir cfg]]
          ++ body ++ (if batch_hangs w q then [] else release_events w (launched w))).
  rewrite !count_app, Hspawn, Hclose, Hkill.
  unfold close_called, kill_called.
  destruct (release_events_count (launched w)) as (R1 & R2 & R3 & R4).
  destruct (batch_hangs w q); cbn [negb andb].
  - change (count is_spawn []) with 0%nat. change (count is_create []) with 0%nat.
    change (count is_close []) with 0%nat. change (count is_kill []) with 0%nat.
    change (count is_spawn [Spawn "npx" ["serve"; publicDir cfg]]) with 1%nat.
    change (count is_create [Spawn "npx" ["serve"; publicDir cfg]]) with 0%nat.
    change (count is_close [Spawn "npx" ["serve"; publicDir cfg]]) with 0%nat.
    change (count is_kill [Spawn "npx" ["serve"; publicDir cfg]]) with 0%nat.
    repeat split; try lia.
    + intros H. rewrite Hlaunch by done. lia.
    + by destruct (launched w).
  - rewrite R1, R2, R3, R4.
    change (count is_spawn [Spawn "npx" ["serve"; publicDir cfg]]) with 1%nat.
    change (count is_create [Spawn "npx" ["serve"; publicDir cfg]]) with 0%nat.
    change (count is_close [Spawn "npx" ["serve"; publicDir cfg]]) with 0%nat.
    change (count is_kill [Spawn "npx" ["serve"; publicDir cfg]]) with 0%nat.
    repeat split; try lia.
    + intros H. rewrite Hlaunch by done. lia.
    + by destruct (launched w).
    + destruct (launched w); [destruct (resolves (close w))|]; done.
Qed.

End RunFacts.

(** * The properties of the specification *)

(** ** Eligibility *)

(** C1: a page is appended to the screenshot queue only if its merged
    options have [provider === 'browser'] and the run is a generate run
    or the merged [static] flag is set (truthy, as the code tests it; a
    boolean flag is then [true]); otherwise the queue is left as it was. *)
Theorem C1_queued_only_if_browser_and_generate_or_static
    (ext : Externals) (cfg : Settings)
    (ctx : PrerenderRoute) (q : list OgImageOptions) :
  let r := prerender_generate ext cfg ctx q in
  queue_after r = q \/
  exists html extracted,
    contents ctx = Some html /\
    extractOgImageOptions ext html = Returns extracted /\
    let options :=
      merge_options (ctx_after r) extracted
                    (get "ogImage" (routeRules ext (route ctx))) in
    queue_after r = q ++ [options] /\
    prop "provider" options = VStr "browser" /\
    (_generate cfg = true \/ truthy (prop "static" options) = true) /\
    (forall b, prop "static" options = VBool b -> _generate cfg = false -> b = true).
Proof.
  cbn zeta.
  destruct (prerender_generate_queue ext cfg ctx q)
    as [Hsame|(html & extracted & Hc & Hx & _ & _ & Hq & Hpush)]; [by left|].
  right. exists html, extracted. cbn zeta in Hq.
  apply should_queue_true in Hq as [Hprov Hrun].
  repeat split; try done.
  intros b Hb Hgen. rewrite Hgen, Hb in Hrun. by destruct Hrun.
Qed.

(** A page whose directive names no provider is not queued, generate run
    or not. *)
Lemma C1_witness :
  queue_after (prerender_generate (example_ext no_rules) (example_cfg true)
                 (page "/a" "{}") []) = [].
Proof.
  destruct (C1_queued_only_if_browser_and_generate_or_static
              (example_ext no_rules) (example_cfg true) (page "/a" "{}") [])
    as [Hsame|(html & extracted & Hc & Hx & _ & Hprov & _)].
  - exact Hsame.
  - injection Hc as <-. vm_compute in Hx. injection Hx as <-.
    vm_compute in Hprov. discriminate Hprov.
Defined.

(** A page with a browser directive is queued in a generate run, and is
    not outside of one. *)
Example browser_page_queued :
  length (queue_after (prerender_generate (example_ext no_rules) (example_cfg true)
                         (page "/a" browser_payload) [])) = 1%nat /\
  queue_after (prerender_generate (example_ext no_rules) (example_cfg false)
                 (page "/a" browser_payload) []) = [].
Proof. by vm_compute. Qed.

(** C2: when the route rules of a route merge to [ogImage === false], the
    handler produces no queue entry, whatever the markup holds. *)
Theorem C2_suppressed_route_never_queued
    (ext : Externals) (cfg : Settings)
    (ctx : PrerenderRoute) (q : list OgImageOptions) :
  get "ogImage" (routeRules ext (route ctx)) = VBool false ->
  queue_after (prerender_generate ext cfg ctx q) = q.
Proof.
  intros Hsup.
  destruct (prerender_generate_queue ext cfg ctx q)
    as [Hsame|(html & extracted & _ & _ & _ & Hf & _)]; [done|].
  by rewrite Hsup in Hf.
Qed.

Lemma C2_witness :
  queue_after (prerender_generate (example_ext suppress_all) (example_cfg true)
                 (page "/blog" browser_payload) []) = [].
Proof.
  apply (C2_suppressed_route_never_queued (example_ext suppress_all)
           (example_cfg true) (page "/blog" browser_payload) []).
  vm_compute. reflexivity.
Defined.

(** C9: a page from whose markup no directive is extracted is never
    queued, even when its route rules carry an override. *)
Theorem C9_no_directive_never_queued
    (ext : Externals) (cfg : Settings)
    (ctx : PrerenderRoute) (q : list OgImageOptions)
    (html : string) (extracted : value) :
  contents ctx = Some html ->
  extractOgImageOptions ext html = Returns extracted ->
  truthy extracted = false ->
  queue_after (prerender_generate ext cfg ctx q) = q.
Proof.
  intros Hc Hx Hnone.
  destruct (prerender_generate_queue ext cfg ctx q)
    as [Hsame|(html' & extracted' & Hc' & Hx' & Ht & _)]; [done|].
  rewrite Hc in Hc'. injection Hc' as <-.
  rewrite Hx in Hx'. injection Hx' as <-. congruence.
Qed.

Lemma C9_witness :
  get "provider" (get "ogImage" (routeRules (example_ext override_all) "/docs"))
    = VStr "browser" /\
  queue_after (prerender_generate (example_ext override_all) (example_cfg true)
                 (plain_page "/docs") []) = [].
Proof.
  split; [by vm_compute|].
  apply (C9_no_directive_never_queued (example_ext override_all)
           (example_cfg true) (plain_page "/docs") [] "<html></html>" VUndef);
    by vm_compute.
Defined.

(** ** Stripping *)

(** C10, as stated, fails on a page with a malformed payload: the
    extractor throws before the stripped markup is written back, so the
    contents keep the marker. *)
Lemma C10_counterexample :
  let ext := example_ext no_rules in
  let ctx := page "/about" "{" in
  let r := prerender_generate ext (example_cfg true) ctx [] in
  skipped_route (route ctx) = false /\
  (exists html,
     contents ctx = Some html /\ html <> EmptyString /\
     contents (ctx_after r) <> Some (stripOgImageOptions ext html)) /\
  contents (ctx_after r) = contents ctx /\
  completion r = Throws SyntaxError.
Proof.
  cbn zeta. split; [by vm_compute|]. split; [|by vm_compute].
  eexists. split; [reflexivity|]. split; [done|]. by vm_compute.
Qed.

(** C10, amended: on every scanned route with non-empty contents from
    which extraction returns, the stripped markup is written back to the
    render context before any eligibility decision, so also for pages
    that a route rule suppresses or that are not queued for another
    reason. *)
Theorem C10_stripped_when_extraction_returns
    (ext : Externals) (cfg : Settings)
    (rendered : PrerenderRoute) (q : list OgImageOptions)
    (html : string) (extracted : value) :
  skipped_route (route rendered) = false ->
  contents rendered = Some html ->
  html <> EmptyString ->
  extractOgImageOptions ext html = Returns extracted ->
  contents (ctx_after (prerender_generate ext cfg rendered q))
    = Some (stripOgImageOptions ext html) /\
  route (ctx_after (prerender_generate ext cfg rendered q)) = route rendered /\
  fileName (ctx_after (prerender_generate ext cfg rendered q)) = fileName rendered /\
  forall options,
    queue_after (prerender_generate ext cfg rendered q) = q ++ [options] ->
    contents (ctx options) = Some (stripOgImageOptions ext html).
Proof.
  intros Hr Hc Hne Hx.
  destruct (prerender_generate_strips ext cfg rendered q html extracted Hr Hc Hne Hx)
    as [Hctx _].
  rewrite Hctx. repeat split.
  intros options Hpush.
  destruct (prerender_generate_queue ext cfg rendered q)
    as [Hsame|(html' & extracted' & _ & _ & _ & _ & _ & Hq)].
  - rewrite Hsame in Hpush. apply (f_equal length) in Hpush.
    rewrite length_app in Hpush. simpl in Hpush. lia.
  - cbn zeta in Hq. rewrite Hq in Hpush. apply app_inj_tail in Hpush as [_ <-].
    by rewrite Hctx.
Qed.

Lemma C10_witness :
  contents (ctx_after (prerender_generate (example_ext suppress_all)
                         (example_cfg true) (page "/blog" browser_payload) []))
    = Some "<html></html>".
Proof.
  apply (C10_stripped_when_extraction_returns (example_ext suppress_all)
           (example_cfg true) (page "/blog" browser_payload) []
           ("<html><og-image-options>" +:+ browser_payload
              +:+ "</og-image-options></html>")
           (VObj {[ "provider" := VStr "browser" ]})); by vm_compute.
Defined.

(** ** The route-rule cascade *)



(** ** Draining the queue *)

(** C3, as stated, fails: not every run drains the queue.  When
    [createBrowser()] returns nothing, the batch over three entries
    returns normally, having sent the browser nowhere and reported no
    line, and the three entries are gone from the queue. *)
Lemma C3_counterexample :
  let run := captureScreenshots (example_ext no_rules) (example_cfg true)
               no_browser_world (initial three_entries) in
  length three_entries = 3%nat /\
  run.1 = Val tt /\
  screenshot_urls (events run.2) = [] /\
  reports (events run.2) = [] /\
  screenshotQueue run.2 = [].
Proof. by vm_compute. Qed.

(** C3, amended: the handler pushes at the end of the queue.  The loop
    over the queue sends the browser to the entries one by one in the
    order of the queue and reports them in that order, each at most once
    and none skipped on the way: the entries it begins and the entries it
    reports are front parts of the queue, a capture is begun only when
    every entry before it is reported, and both are the whole queue when
    no call awaited in the loop stays pending.  A batch whose setup
    succeeds does just that; a batch whose setup fails sends the browser
    nowhere and reports nothing. *)
Theorem C3_drained_in_enqueue_order
    (ext : Externals) (cfg : Settings) (w : World)
    (rendered : PrerenderRoute) (q : list OgImageOptions) :
  let begun := drain_started w 0 q in
  let reported := drain_done w 0 q in
  (queue_after (prerender_generate ext cfg rendered q) = q \/
   exists options, queue_after (prerender_generate ext cfg rendered q) = q ++ [options]) /\
  ((reported <= begun <= S reported)%nat /\ (begun <= length q)%nat /\
   (loop_hangs w (length q) = false -> begun = length q /\ reported = length q)) /\
  (forall host s,
     let s' := (for_in 0 q (capture_entry ext cfg w host (length q)) s).2 in
     screenshot_urls (events s') =
       screenshot_urls (events s) ++ (url_of host <$> take begun q) /\
     file <$> reports (events s') =
       (file <$> reports (events s)) ++
       ((fun entry => relative ext (publicDir cfg) (filename_of ext cfg entry))
          <$> take reported q) /\
     finished <$> reports (events s') =
       (finished <$> reports (events s)) ++ seq 1 reported) /\
  let tr := events (captureScreenshots ext cfg w (initial q)).2 in
  (forall host, setup_succeeds w host ->
     screenshot_urls tr = url_of host <$> take begun q /\
     file <$> reports tr =
       (fun entry => relative ext (publicDir cfg) (filename_of ext cfg entry))
         <$> take reported q /\
     finished <$> reports tr = seq 1 reported) /\
  ((forall host, ~ setup_succeeds w host) ->
     screenshot_urls tr = [] /\ reports tr = []).
Proof.
  cbn zeta. split.
  { destruct (prerender_generate_queue ext cfg rendered q)
      as [Hsame|(html & extracted & _ & _ & _ & _ & _ & Hpush)]; [by left|].
    right. eexists. exact Hpush. }
  split.
  { destruct (drain_done_started w q 0) as [Hle Hlen].
    split; [done|]. split; [done|].
    rewrite <- drain_hangs_loop. apply drain_all. }
  split.
  { intros host s. rewrite for_in_run. cbn [snd events].
    destruct (drain_events_fields ext cfg w host (length q) q (ticks s) 0)
      as (_ & _ & Hfile & Hdone & _).
    unfold screenshot_urls, reports in *. rewrite !omap_app, !fmap_app.
    fold (screenshot_urls (drain_events ext cfg w host (length q) (ticks s) 0 q)).
    by rewrite drain_events_urls, Hfile, Hdone. }
  destruct q as [|entry q].
  { rewrite captureScreenshots_empty by done. by split. }
  split.
  - intros host Hsetup.
    destruct (drain_events_fields ext cfg w host (length (entry :: q))
                (entry :: q) 0 0) as (_ & _ & Hfile & Hdone & _).
    unfold screenshot_urls, reports in *.
    rewrite !(batch_projection ext cfg w _ (entry :: q) host) by done.
    fold (screenshot_urls (drain_events ext cfg w host (length (entry :: q)) 0 0
                             (entry :: q))).
    by rewrite drain_events_urls, Hfile, Hdone.
  - intros Hno. rewrite run_initial by done. cbn [snd events].
    apply batch_events_no_browser. by apply setup_fails_no_browser.
Qed.

Lemma C3_witness :
  screenshot_urls
    (events (captureScreenshots (example_ext no_rules) (example_cfg true)
               fine_world (initial three_entries)).2)
  = ["http://localhost:3000/a"; "http://localhost:3000/b";
     "http://localhost:3000/c"].
Proof.
  refine (eq_trans (proj1 (proj1 (proj2 (proj2 (proj2
            (C3_drained_in_enqueue_order
               (example_ext no_rules) (example_cfg true) fine_world
               (plain_page "/") three_entries)))) "http://localhost:3000" _)) _).
  - exists ("http://localhost:3000" +:+ line_feed), Chromium.
    repeat split; vm_compute; reflexivity.
  - vm_compute. reflexivity.
Defined.

(** C4: an entry whose capture or whose write throws has its error
    caught and logged and its line reported as failed, and the loop goes
    on.  As long as every call awaited in the loop settles, the loop over
    a queue of [n] entries ends normally, having captured all [n] entries
    and reported [n] lines, the failed ones being exactly those whose
    capture or write threw; and so does every batch whose setup has
    succeeded, which then ends as the release at its end does. *)
Theorem C4_failures_are_isolated
    (ext : Externals) (cfg : Settings) (w : World)
    (q : list OgImageOptions) (host : string) :
  loop_hangs w (length q) = false ->
  (forall s,
     let run := for_in 0 q (capture_entry ext cfg w host (length q)) s in
     run.1 = Val tt /\
     screenshot_urls (events run.2) = screenshot_urls (events s) ++ (url_of host <$> q) /\
     length (reports (events run.2)) = (length (reports (events s)) + length q)%nat /\
     failed <$> reports (events run.2) =
       (failed <$> reports (events s)) ++ (entry_fails w <$> seq 0 (length q)) /\
     console_errors (events run.2) =
       console_errors (events s) ++ omap (entry_error w) (seq 0 (length q))) /\
  (setup_succeeds w host ->
   let run := captureScreenshots ext cfg w (initial q) in
   let tr := events run.2 in
   (close w = Resolved tt -> kill w = Returns tt -> run.1 = Val tt) /\
   (q <> [] -> run.1 = release_result w (launched w)) /\
   screenshot_urls tr = url_of host <$> q /\
   length (reports tr) = length q /\
   failed <$> reports tr = entry_fails w <$> seq 0 (length q) /\
   console_errors tr = omap (entry_error w) (seq 0 (length q))).
Proof.
  intros Hloop.
  assert (drain_hangs w 0 q = false) as Hdrain by by rewrite drain_hangs_loop.
  destruct (drain_all w q 0 Hdrain) as [Hbegun Hdone].
  split.
  { intros s. cbn zeta. rewrite for_in_run. cbn [fst snd events].
    rewrite Hdrain. split; [done|].
    destruct (drain_events_fields ext cfg w host (length q) q (ticks s) 0)
      as (Hlen & Hfailed & _).
    unfold screenshot_urls, reports, console_errors in *.
    rewrite !omap_app, !fmap_app, length_app.
    fold (screenshot_urls (drain_events ext cfg w host (length q) (ticks s) 0 q)).
    fold (console_errors (drain_events ext cfg w host (length q) (ticks s) 0 q)).
    rewrite drain_events_urls, drain_events_errors, Hfailed, Hlen, Hbegun, Hdone.
    by rewrite firstn_all. }
  intros Hsetup. cbn zeta. destruct q as [|entry q].
  { rewrite captureScreenshots_empty by done. by repeat split. }
  destruct (drain_events_fields ext cfg w host (length (entry :: q))
              (entry :: q) 0 0) as (Hlen & Hfailed & _).
  unfold screenshot_urls, console_errors, reports in *.
  rewrite !(batch_projection ext cfg w _ (entry :: q) host) by done.
  fold (screenshot_urls (drain_events ext cfg w host (length (entry :: q)) 0 0
                           (entry :: q))).
  fold (console_errors (drain_events ext cfg w host (length (entry :: q)) 0 0
                          (entry :: q))).
  rewrite drain_events_urls, drain_events_errors, Hfailed, Hlen, Hbegun, Hdone.
  rewrite firstn_all.
  assert ((captureScreenshots ext cfg w (initial (entry :: q))).1
          = release_result w (launched w)) as Hres.
  { rewrite run_initial by done. cbn [fst]. unfold batch_result.
    by rewrite (batch_hangs_setup w (entry :: q) host Hsetup), Hloop. }
  split; [|by repeat split].
  intros Hclose Hkill. rewrite Hres.
  destruct (setup_launched w host Hsetup) as (b & -> & _).
  unfold release_result, kill_result. by rewrite Hclose, Hkill.
Qed.

(** Scenario C of the spec: three entries, the capture of the second one
    throws. *)
Lemma C4_witness :
  let run := captureScreenshots (example_ext no_rules) (example_cfg true)
               second_fails (initial three_entries) in
  run.1 = Val tt /\
  length (reports (events run.2)) = 3%nat /\
  failed <$> reports (events run.2) = [false; true; false].
Proof.
  assert (loop_hangs second_fails (length three_entries) = false) as Hloop
    by (vm_compute; reflexivity).
  assert (setup_succeeds second_fails "http://localhost:3000") as Hsetup.
  { exists ("http://localhost:3000" +:+ line_feed), Chromium.
    repeat split; vm_compute; reflexivity. }
  destruct (proj2 (C4_failures_are_isolated (example_ext no_rules)
              (example_cfg true) second_fails three_entries
              "http://localhost:3000" Hloop) Hsetup)
    as (Hret & _ & _ & Hlen & Hfailed & _).
  cbn zeta. split; [apply Hret; reflexivity|]. split; [exact Hlen|exact Hfailed].
Defined.
(** ** Resources *)

(** C5, at the input where it fails: the [finally] block awaits
    [browser.close()] before it kills the server, with nothing around
    that call.  When the setup has succeeded, the loop has been got
    through and [browser.close()] rejects with [e], the batch leaves by
    the exception [e] with the server spawned once, the browser launched
    once and closed once, and the server never killed: the call of
    [close()] is the last event. *)
Theorem C5_rejected_close_skips_the_kill
    (ext : Externals) (cfg : Settings) (w : World) (q : list OgImageOptions)
    (host : string) (e : error) :
  q <> [] ->
  setup_succeeds w host ->
  loop_hangs w (length q) = false ->
  close w = Rejected e ->
  let run := captureScreenshots ext cfg w (initial q) in
  let tr := events run.2 in
  run.1 = Exn e /\
  count is_spawn tr = 1%nat /\ count is_create tr = 1%nat /\
  count is_close tr = 1%nat /\ count is_kill tr = 0%nat /\
  last tr = Some BrowserClose.
Proof.
  intros Hq Hsetup Hloop Hclose. cbn zeta. rewrite run_initial by done.
  cbn [fst snd events].
  destruct (setup_launched w host Hsetup) as (b & Hb & _).
  pose proof (batch_hangs_setup w q host Hsetup) as Hhang.
  rewrite Hloop in Hhang.
  destruct (batch_events_counts ext cfg w q 0) as (H1 & _ & H2 & H3 & H4).
  unfold close_called, kill_called in *. rewrite Hb, Hhang, Hclose in *.
  split; [by unfold batch_result, release_result; rewrite Hhang, Hb, Hclose|].
  split; [done|]. split; [by apply H2|]. split; [done|]. split; [done|].
  rewrite (batch_events_setup ext cfg w q 0 host Hsetup), Hloop, Hb.
  unfold release_events. rewrite Hclose.
  by rewrite !app_assoc, last_snoc.
Qed.

Lemma C5_witness :
  let run := captureScreenshots (example_ext no_rules) (example_cfg true)
               close_rejects (initial three_entries) in
  run.1 = Exn (Failure "Protocol error: connection lost") /\
  count is_kill (events run.2) = 0%nat.
Proof.
  destruct (C5_rejected_close_skips_the_kill (example_ext no_rules)
              (example_cfg true) close_rejects three_entries
              "http://localhost:3000" (Failure "Protocol error: connection lost"))
    as (Hexn & _ & _ & _ & Hkill & _).
  - vm_compute. discriminate.
  - exists ("http://localhost:3000" +:+ line_feed), Chromium.
    repeat split; vm_compute; reflexivity.
  - vm_compute. reflexivity.
  - reflexivity.
  - cbn zeta. split; [exact Hexn|exact Hkill].
Defined.

(** Every capture of [three_entries] failing, the browser is still closed
    and the server still killed, once each. *)
Example release_when_every_job_fails :
  let tr := events (captureScreenshots (example_ext no_rules) (example_cfg true)
                      all_fail (initial three_entries)).2 in
  failed <$> reports tr = [true; true; true] /\
  count is_close tr = 1%nat /\ count is_kill tr = 1%nat /\
  last tr = Some Kill.
Proof. by vm_compute. Qed.

(** ** Triggering twice *)

(** C6, at the input where it fails: the queue is reset behind the
    [try]/[finally], so a batch that leaves its [finally] block by an
    exception does not reset it.  When the setup has succeeded, the loop
    has been got through and [browser.close()] rejects, the queue is
    after the drain what it was before it, and the next trigger, in
    whatever world, spawns the server a second time; where its setup
    succeeds and its loop is got through it captures every entry a
    second time. *)
Theorem C6_rejected_close_keeps_the_queue
    (ext : Externals) (cfg : Settings) (w w' : World) (q : list OgImageOptions)
    (host : string) (e : error) :
  q <> [] ->
  setup_succeeds w host ->
  loop_hangs w (length q) = false ->
  close w = Rejected e ->
  let first := captureScreenshots ext cfg w (initial q) in
  let second := captureScreenshots ext cfg w' first.2 in
  screenshotQueue first.2 = q /\
  count is_spawn (events second.2) = 2%nat /\
  (forall host',
     setup_succeeds w' host' -> loop_hangs w' (length q) = false ->
     screenshot_urls (events second.2)
       = (url_of host <$> q) ++ (url_of host' <$> q)).
Proof.
  intros Hq Hsetup Hloop Hclose. cbn zeta.
  destruct (setup_launched w host Hsetup) as (b & Hb & _).
  pose proof (batch_hangs_setup w q host Hsetup) as Hhang.
  rewrite Hloop in Hhang.
  assert (batch_result w q = Exn e) as Hres
    by by unfold batch_result, release_result; rewrite Hhang, Hb, Hclose.
  rewrite run_initial by done. rewrite Hres. cbn [snd screenshotQueue].
  split; [done|].
  rewrite captureScreenshots_run by done.
  cbn [snd batch_state events screenshotQueue ticks].
  match goal with
  | |- context [batch_events ext cfg w' q ?n] => generalize n; intros t
  end.
  split.
  - rewrite count_app.
    destruct (batch_events_counts ext cfg w q 0) as (-> & _).
    by destruct (batch_events_counts ext cfg w' q t) as (-> & _).
  - intros host' Hsetup' Hloop'. unfold screenshot_urls. rewrite omap_app.
    rewrite (batch_events_projection ext cfg w _ q 0 host) by done.
    rewrite (batch_events_projection ext cfg w' _ q t host') by done.
    fold (screenshot_urls (drain_events ext cfg w host (length q) 0 0 q)).
    fold (screenshot_urls (drain_events ext cfg w' host' (length q) t 0 q)).
    rewrite !drain_events_urls.
    rewrite <- drain_hangs_loop in Hloop, Hloop'.
    destruct (drain_all w q 0 Hloop) as [-> _].
    destruct (drain_all w' q 0 Hloop') as [-> _].
    by rewrite !firstn_all.
Qed.

Lemma C6_witness :
  let first := captureScreenshots (example_ext no_rules) (example_cfg true)
                 close_rejects (initial three_entries) in
  let second := captureScreenshots (example_ext no_rules) (example_cfg true)
                  fine_world first.2 in
  screenshotQueue first.2 = three_entries /\
  count is_spawn (events second.2) = 2%nat.
Proof.
  destruct (C6_rejected_close_keeps_the_queue (example_ext no_rules)
              (example_cfg true) close_rejects fine_world three_entries
              "http://localhost:3000" (Failure "Protocol error: connection lost"))
    as (Hqueue & Hspawn & _).
  - vm_compute. discriminate.
  - exists ("http://localhost:3000" +:+ line_feed), Chromium.
    repeat split; vm_compute; reflexivity.
  - vm_compute. reflexivity.
  - reflexivity.
  - cbn zeta. split; [exact Hqueue|exact Hspawn].
Defined.

(** Both hooks firing in one build: one batch, released once. *)
Example both_hooks_one_batch :
  let run := run_hooks (build_hooks (example_ext no_rules) (example_cfg true)
                          fine_world false) (initial three_entries) in
  run.1 = Val tt /\
  count is_spawn (events run.2) = 1%nat /\
  count is_kill (events run.2) = 1%nat /\
  length (reports (events run.2)) = 3%nat.
Proof. by vm_compute. Qed.

(** ** Waiting for the server *)




(** * Further properties *)

(** ** The handler and the render pass *)

Section PassFacts.
Context (ext : Externals) (cfg : Settings).

(** The handler never changes the route or the file name of the context,
    and the entry it pushes, if any, carries the context it leaves. *)
Lemma prerender_generate_step (page : PrerenderRoute) (q : list OgImageOptions) :
  let r := prerender_generate ext cfg page q in
  route (ctx_after r) = route page /\
  fileName (ctx_after r) = fileName page /\
  (queue_after r = q \/
   exists entry,
     queue_after r = q ++ [entry] /\ ctx entry = ctx_after r /\
     well_queued ext cfg entry).
Proof.
  cbn zeta. unfold prerender_generate.
  destruct (skipped_route (route page)) eqn:Hskip; [by repeat split; try left|].
  destruct (contents page) as [html|]; [|by repeat split; try left].
  destruct (String.eqb_spec html EmptyString) as [->|Hne];
    [by repeat split; try left|].
  destruct (extractOgImageOptions ext html) as [extracted|e];
    [|by repeat split; try left].
  destruct (negb (truthy extracted)
            || is_false (get "ogImage" (routeRules ext (route page))));
    [by repeat split; try left|].
  cbn [ctx_after queue_after route fileName]. split; [done|]. split; [done|].
  match goal with |- context [should_queue cfg ?o] =>
    destruct (should_queue cfg o) eqn:Hq end; [|by left].
  right. eexists. split; [done|]. split; [done|].
  apply should_queue_true in Hq as [Hprov Hrun].
  unfold well_queued. split; [done|]. split; [done|].
  cbn [ctx merge_options route contents fields]. split; [done|].
  split; [by exists html|]. apply lookup_delete_eq.
Qed.

End PassFacts.

(** X1: a render pass only appends to the queue, at most one entry per
    page and in the order of the pages: the routes of the new entries
    are a sublist of the routes of the pages. *)
Theorem X1_pass_appends_in_page_order
    (ext : Externals) (cfg : Settings)
    (pages : list PrerenderRoute) (q : list OgImageOptions) :
  exists added,
    prerender_pass ext cfg pages q = q ++ added /\
    sublist ((fun entry => route (ctx entry)) <$> added) (route <$> pages) /\
    (length added <= length pages)%nat.
Proof.
  revert q. induction pages as [|page pages IH]; intros q.
  - exists []. by rewrite app_nil_r.
  - unfold prerender_pass. cbn [foldl].
    fold (prerender_pass ext cfg pages
            (queue_after (prerender_generate ext cfg page q))).
    destruct (IH (queue_after (prerender_generate ext cfg page q)))
      as (added & -> & Hsub & Hlen).
    destruct (prerender_generate_step ext cfg page q)
      as (Hroute & _ & [->|(entry & -> & Hctx & _)]).
    + exists added. split; [done|]. split; [|cbn [length]; lia].
      cbn [fmap list_fmap]. by apply sublist_cons.
    + exists (entry :: added). rewrite <- app_assoc. split; [done|].
      split; [|cbn [length]; lia].
      cbn [fmap list_fmap]. rewrite Hctx, Hroute. by apply sublist_skip.
Qed.

(** X2: the pass keeps the queue well formed: if every entry of the queue
    asks for the browser provider (in a generate run or with a set static
    flag), comes from a scanned route and holds stripped, non-empty
    markup, then so does every entry after the pass. *)
Theorem X2_pass_keeps_queue_well_formed
    (ext : Externals) (cfg : Settings)
    (pages : list PrerenderRoute) (q : list OgImageOptions) :
  Forall (well_queued ext cfg) q ->
  Forall (well_queued ext cfg) (prerender_pass ext cfg pages q).
Proof.
  revert q. induction pages as [|page pages IH]; intros q Hq; [done|].
  unfold prerender_pass. cbn [foldl].
  fold (prerender_pass ext cfg pages
          (queue_after (prerender_generate ext cfg page q))).
  apply IH.
  destruct (prerender_generate_step ext cfg page q)
    as (_ & _ & [->|(entry & -> & _ & Hentry)]); [done|].
  apply Forall_app. split; [done|]. by constructor.
Qed.

Lemma X2_witness :
  Forall (well_queued (example_ext no_rules) (example_cfg true)) three_entries.
Proof.
  apply (X2_pass_keeps_queue_well_formed (example_ext no_rules) (example_cfg true)
           [page "/a" browser_payload; page "/b" browser_payload;
            page "/c" browser_payload] []).
  constructor.
Defined.

(** X3: the handler throws exactly when the extractor throws on a
    scanned route with non-empty contents, with the extractor's error;
    and then neither the context nor the queue has changed. *)
Theorem X3_handler_throws_iff_extractor_throws
    (ext : Externals) (cfg : Settings)
    (page : PrerenderRoute) (q : list OgImageOptions) (e : error) :
  let r := prerender_generate ext cfg page q in
  (completion r = Throws e <->
   skipped_route (route page) = false /\
   exists html, contents page = Some html /\ html <> EmptyString /\
                extractOgImageOptions ext html = Throws e) /\
  (completion r = Throws e -> ctx_after r = page /\ queue_after r = q).
Proof.
  cbn zeta. unfold prerender_generate.
  destruct (skipped_route (route page)) eqn:Hskip.
  { split; [|done]. split; [done|]. by intros [? _]. }
  destruct (contents page) as [html|] eqn:Hc.
  2: { split; [|done]. split; [done|]. by intros (_ & html & ? & _). }
  destruct (String.eqb_spec html EmptyString) as [->|Hne].
  { split; [|done]. split; [done|]. intros (_ & html & Hh & Hn & _). congruence. }
  destruct (extractOgImageOptions ext html) as [extracted|e'] eqn:Hx.
  - split.
    + split.
      * by destruct (negb (truthy extracted)
                     || is_false (get "ogImage" (routeRules ext (route page)))).
      * intros (_ & html' & Hh & _ & Hx'). congruence.
    + by destruct (negb (truthy extracted)
                   || is_false (get "ogImage" (routeRules ext (route page)))).
  - cbn [completion ctx_after queue_after]. split; [|done]. split.
    + intros [= ->]. split; [done|]. by exists html.
    + intros (_ & html' & Hh & _ & Hx'). congruence.
Qed.

Lemma X3_witness :
  ctx_after (prerender_generate (example_ext no_rules) (example_cfg true)
               (page "/about" "{") three_entries) = page "/about" "{" /\
  queue_after (prerender_generate (example_ext no_rules) (example_cfg true)
                 (page "/about" "{") three_entries) = three_entries.
Proof.
  apply (proj2 (X3_handler_throws_iff_extractor_throws (example_ext no_rules)
                  (example_cfg true) (page "/about" "{") three_entries SyntaxError)).
  vm_compute. reflexivity.
Defined.

(** X4: the precedence among the merged options.  A property of the
    route-rule override wins over the same property of the directive,
    which wins over the [path] the handler puts first; a property that
    none of them has is [undefined]; and no [ctx] property of a fragment
    survives next to the render context. *)
Theorem X4_override_beats_directive_beats_path
    (page : PrerenderRoute) (extracted ogImage : value) (k : string) :
  k <> "ctx" ->
  prop k (merge_options page extracted ogImage) =
    match override_properties ogImage !! k with
    | Some v => v
    | None =>
        match own_properties extracted !! k with
        | Some v => v
        | None => if String.eqb k "path" then VStr (route page) else VUndef
        end
    end /\
  fields (merge_options page extracted ogImage) !! "ctx" = None /\
  ctx (merge_options page extracted ogImage) = page.
Proof.
  intros Hk. split; [|split; [apply lookup_delete_eq|done]].
  unfold prop, merge_options, spread, override_properties. cbn [fields].
  rewrite lookup_delete_ne by done.
  destruct (own_properties (if truthy ogImage then ogImage else VObj ∅) !! k)
    as [v|] eqn:Ho.
  { by erewrite lookup_union_Some_l. }
  rewrite lookup_union_r by done.
  destruct (own_properties extracted !! k) as [v|] eqn:Hx.
  { by erewrite lookup_union_Some_l. }
  rewrite lookup_union_r by done.
  destruct (String.eqb_spec k "path") as [->|Hp].
  - by rewrite lookup_singleton_eq.
  - by rewrite lookup_singleton_ne.
Qed.

Lemma X4_witness :
  prop "provider"
    (merge_options (page "/a" browser_payload)
       (VObj {[ "provider" := VStr "browser"; "width" := VNum 800 ]})
       (VObj {[ "provider" := VStr "satori" ]})) = VStr "satori" /\
  prop "width"
    (merge_options (page "/a" browser_payload)
       (VObj {[ "provider" := VStr "browser"; "width" := VNum 800 ]})
       (VObj {[ "provider" := VStr "satori" ]})) = VNum 800.
Proof.
  split.
  - refine (eq_trans (proj1 (X4_override_beats_directive_beats_path
             (page "/a" browser_payload)
             (VObj {[ "provider" := VStr "browser"; "width" := VNum 800 ]})
             (VObj {[ "provider" := VStr "satori" ]}) "provider" _)) _).
    + discriminate.
    + vm_compute. reflexivity.
  - refine (eq_trans (proj1 (X4_override_beats_directive_beats_path
             (page "/a" browser_payload)
             (VObj {[ "provider" := VStr "browser"; "width" := VNum 800 ]})
             (VObj {[ "provider" := VStr "satori" ]}) "width" _)) _).
    + discriminate.
    + vm_compute. reflexivity.
Defined.

(** ** The cascade at its edges *)

Lemma keep_key_lookup_eq (k : string) (object result : gmap string value) :
  keep_key k object result !! k = object !! k.
Proof.
  unfold keep_key. destruct (object !! k) eqn:E;
    [by rewrite lookup_insert_eq|by rewrite lookup_delete_eq].
Qed.

(** Merging a rule into the empty object copies the rule. *)
Lemma _defu_empty_base (r : gmap string value) :
  _defu (VObj ∅) (VObj r) = VObj r.
Proof.
  cbn [_defu defaults_copy isObject own_properties]. f_equal.
  apply map_eq. intros k.
  destruct (decide (k = "__proto__")) as [->|H1]; [apply keep_key_lookup_eq|].
  rewrite keep_key_lookup_ne by done.
  destruct (decide (k = "constructor")) as [->|H2]; [apply keep_key_lookup_eq|].
  rewrite keep_key_lookup_ne by done.
  rewrite lookup_merge, lookup_empty. by destruct (r !! k).
Qed.

(** X5: a route no rule matches has the empty object for its merged
    rules, and a route exactly one rule matches has that rule itself:
    nothing is added, dropped or changed. *)
Theorem X5_no_match_and_single_match (ext : Externals) (path : string) :
  (matchAll ext path = [] -> routeRules ext path = VObj ∅) /\
  (forall r, matchAll ext path = [r] -> routeRules ext path = VObj r).
Proof.
  unfold routeRules, defu. split.
  - intros ->. change (reverse (@nil (gmap string value))) with (@nil (gmap string value)).
    cbn [fmap list_fmap foldl]. apply _defu_empty_base.
  - intros r ->. change (reverse [r]) with [r].
    cbn [fmap list_fmap foldl]. by rewrite !_defu_empty_base.
Qed.

Lemma X5_witness :
  routeRules (example_ext suppress_all) "/blog" = VObj {[ "ogImage" := VBool false ]}.
Proof.
  apply (proj2 (X5_no_match_and_single_match (example_ext suppress_all) "/blog")).
  reflexivity.
Defined.

(** X6: when the last match that says anything about [ogImage] says
    [false], the page is never queued, whatever the matches before it
    hold and whatever directive the markup carries. *)
Theorem X6_last_match_false_suppresses
    (ext : Externals) (cfg : Settings)
    (page : PrerenderRoute) (q : list OgImageOptions)
    (before after : list (gmap string value)) (r : gmap string value) :
  matchAll ext (route page) = before ++ r :: after ->
  Forall (fun r' => is_nullish (get "ogImage" (VObj r')) = true) after ->
  r !! "ogImage" = Some (VBool false) ->
  get "ogImage" (routeRules ext (route page)) = VBool false /\
  queue_after (prerender_generate ext cfg page q) = q.
Proof.
  intros Hm Hafter Hr.
  assert (get "ogImage" (routeRules ext (route page)) = VBool false) as Hsup.
  { eapply routeRules_last_match; try done. cbn [get]. by rewrite Hr. }
  split; [done|].
  destruct (prerender_generate_queue ext cfg page q)
    as [Hsame|(html & extracted & _ & _ & _ & Hf & _)]; [done|].
  by rewrite Hsup in Hf.
Qed.

Lemma X6_witness :
  queue_after (prerender_generate
                 (example_ext (fun _ => [general_rule; suppressing_rule]))
                 (example_cfg true) (page "/blog/secret" browser_payload) []) = [].
Proof.
  apply (X6_last_match_false_suppresses
           (example_ext (fun _ => [general_rule; suppressing_rule]))
           (example_cfg true) (page "/blog/secret" browser_payload) []
           [general_rule] [] suppressing_rule).
  - reflexivity.
  - constructor.
  - vm_compute. reflexivity.
Defined.

Section ObjectStays.
Context (g : string) (Hg : skipped_key g = false).

Lemma step_object (a m : gmap string value) (d : value) (o : gmap string value) :
  a !! g = Some (VObj o) ->
  (forall k, skipped_key k = false ->
     m !! k = merged_field (a !! k) (defaults_copy d !! k)) ->
  exists o', m !! g = Some (VObj o').
Proof.
  intros Ha Hm. rewrite Hm, Ha by done.
  cbn [merged_field assign_default is_nullish].
  destruct (defaults_copy d !! g) as [x|]; [|by exists o].
  cbn [isObject andb]. destruct (isObject x); [|by exists o].
  destruct (_defu_object o x) as (m' & -> & _). by exists m'.
Qed.

Lemma reduce_object (rs : list (gmap string value)) (a o : gmap string value) :
  a !! g = Some (VObj o) ->
  exists o', get g (foldl _defu (VObj a) (VObj <$> rs)) = VObj o'.
Proof.
  revert a o. induction rs as [|r rs IH]; intros a o Ha.
  - exists o. cbn. by rewrite Ha.
  - cbn [fmap list_fmap foldl].
    destruct (_defu_object a (VObj r)) as (m & -> & Hm).
    destruct (step_object a m (VObj r) o Ha Hm) as (o' & Ho').
    by eapply IH.
Qed.

Lemma reduce_first_object (pre post : list (gmap string value))
    (a r o : gmap string value) :
  is_nullish (get g (VObj a)) = true ->
  Forall (fun r' => is_nullish (get g (VObj r')) = true) pre ->
  r !! g = Some (VObj o) ->
  exists o', get g (foldl _defu (VObj a) (VObj <$> (pre ++ r :: post))) = VObj o'.
Proof.
  intros Ha Hpre Hr. revert a Ha.
  induction Hpre as [|r' pre Hr' _ IH]; intros a Ha.
  - cbn [app fmap list_fmap foldl].
    destruct (_defu_object a (VObj r)) as (m & -> & Hm).
    apply (reduce_object post m o).
    rewrite Hm by done. rewrite merged_field_nullish by done.
    by cbn [defaults_copy isObject own_properties].
  - cbn [app fmap list_fmap foldl].
    destruct (_defu_object a (VObj r')) as (m & -> & Hm).
    apply IH. cbn [get]. rewrite Hm by done.
    by rewrite merged_field_nullish.
Qed.

End ObjectStays.

(** X7: when the last match that says anything about [ogImage] gives an
    object, the merged [ogImage] is an object: a [false] of a match
    before it does not suppress the page. *)
Theorem X7_last_match_object_is_not_suppressed
    (ext : Externals) (path : string)
    (before after : list (gmap string value)) (r o : gmap string value) :
  matchAll ext path = before ++ r :: after ->
  Forall (fun r' => is_nullish (get "ogImage" (VObj r')) = true) after ->
  r !! "ogImage" = Some (VObj o) ->
  (exists o', get "ogImage" (routeRules ext path) = VObj o') /\
  is_false (get "ogImage" (routeRules ext path)) = false.
Proof.
  intros Hm Hafter Hr.
  assert (exists o', get "ogImage" (routeRules ext path) = VObj o') as [o' Ho'].
  { unfold routeRules, defu. rewrite Hm.
    rewrite reverse_app, reverse_cons, <- app_assoc. cbn [app].
    change (VObj ∅ :: (VObj <$> reverse after ++ r :: reverse before))
      with (VObj <$> ((∅ :: reverse after) ++ r :: reverse before)).
    eapply reduce_first_object; try done.
    constructor; [done|]. by apply Forall_reverse. }
  split; [by exists o'|]. by rewrite Ho'.
Qed.

Lemma X7_witness :
  length (queue_after (prerender_generate
                         (example_ext (fun _ => [suppressing_rule; general_rule]))
                         (example_cfg true) (page "/blog/post" browser_payload) []))
    = 1%nat /\
  is_false (get "ogImage"
              (routeRules (example_ext (fun _ => [suppressing_rule; general_rule]))
                          "/blog/post")) = false.
Proof.
  split; [vm_compute; reflexivity|].
  apply (X7_last_match_object_is_not_suppressed
           (example_ext (fun _ => [suppressing_rule; general_rule])) "/blog/post"
           [suppressing_rule] [] general_rule {[ "provider" := VStr "browser" ]}).
  - reflexivity.
  - constructor.
  - vm_compute. reflexivity.
Defined.

Lemma _defu_gives_object (v d : value) :
  isObject v = true -> exists m, _defu v d = VObj m.
Proof. destruct v; try done; intros _; eexists; reflexivity. Qed.

Section Defined.
Context (k : string) (Hk : skipped_key k = false).

Lemma step_defined (a m : gmap string value) (d v : value) :
  a !! k = Some v -> is_nullish v = false ->
  (forall k', skipped_key k' = false ->
     m !! k' = merged_field (a !! k') (defaults_copy d !! k')) ->
  exists v', m !! k = Some v' /\ is_nullish v' = false.
Proof.
  intros Ha Hv Hm. rewrite Hm, Ha by done.
  cbn [merged_field]. unfold assign_default. rewrite Hv.
  eexists. split; [reflexivity|].
  destruct (defaults_copy d !! k) as [x|]; [|by destruct v].
  destruct (isObject v) eqn:Ho.
  - destruct (isObject x) eqn:Hx.
    + destruct v; try done; destruct x; try done; cbn [andb];
        match goal with
        | |- is_nullish (_defu ?b ?y) = false =>
            by destruct (_defu_gives_object b y eq_refl) as [? ->]
        end.
    + by destruct v, x.
  - by destruct v, x.
Qed.

Lemma reduce_defined (rs : list (gmap string value)) (a : gmap string value)
    (v : value) :
  a !! k = Some v -> is_nullish v = false ->
  is_nullish (get k (foldl _defu (VObj a) (VObj <$> rs))) = false.
Proof.
  revert a v. induction rs as [|r rs IH]; intros a v Ha Hv.
  - cbn. by rewrite Ha.
  - cbn [fmap list_fmap foldl].
    destruct (_defu_object a (VObj r)) as (m & -> & Hm).
    destruct (step_defined a m (VObj r) v Ha Hv Hm) as (v' & Hv' & Hn).
    by eapply IH.
Qed.

Lemma reduce_defined_iff (rs : list (gmap string value)) (a : gmap string value) :
  is_nullish (get k (VObj a)) = true ->
  is_nullish (get k (foldl _defu (VObj a) (VObj <$> rs))) = false <->
  Exists (fun r => is_nullish (get k (VObj r)) = false) rs.
Proof.
  revert a. induction rs as [|r rs IH]; intros a Ha.
  - cbn [fmap list_fmap foldl]. rewrite Ha. split; [done|]. by intros ?%Exists_nil.
  - cbn [fmap list_fmap foldl].
    destruct (_defu_object a (VObj r)) as (m & -> & Hm).
    assert (m !! k = r !! k) as Hmk.
    { rewrite Hm by done. by rewrite merged_field_nullish. }
    destruct (is_nullish (get k (VObj r))) eqn:Hr.
    + rewrite IH by (cbn [get]; rewrite Hmk; exact Hr).
      rewrite Exists_cons. split; [by right|]. intros [?|?]; [congruence|done].
    + split; [intros _; by apply Exists_cons_hd|]. intros _.
      cbn [get] in Hr. destruct (r !! k) as [v|] eqn:Hv; [|done].
      eapply reduce_defined; [by rewrite Hmk|done].
Qed.

End Defined.

(** X17: nothing a rule sets is lost in the cascade, and nothing is made
    up: a property is set (neither [null] nor [undefined]) in the merged
    route rules exactly when some matching rule sets it. *)
Theorem X17_merged_sets_what_some_rule_sets
    (ext : Externals) (path k : string) :
  skipped_key k = false ->
  is_nullish (get k (routeRules ext path)) = false <->
  exists r, r ∈ matchAll ext path /\ is_nullish (get k (VObj r)) = false.
Proof.
  intros Hk. unfold routeRules, defu.
  change (VObj ∅ :: (VObj <$> reverse (matchAll ext path)))
    with (VObj <$> (∅ :: reverse (matchAll ext path))).
  rewrite reduce_defined_iff by done.
  rewrite Exists_exists. split.
  - intros (r & Hin & Hr). apply elem_of_cons in Hin as [->|Hin]; [done|].
    exists r. split; [|done]. by apply elem_of_reverse.
  - intros (r & Hin & Hr). exists r. split; [|done].
    apply elem_of_cons. right. by apply elem_of_reverse.
Qed.

Lemma X17_witness :
  is_nullish (get "prerender" (routeRules (example_ext specific_first) "/blog/secret"))
    = false.
Proof.
  apply (X17_merged_sets_what_some_rule_sets (example_ext specific_first)
           "/blog/secret" "prerender"); [reflexivity|].
  exists general_rule. split; [|vm_compute; reflexivity].
  apply elem_of_cons. right. apply elem_of_cons. by left.
Defined.
(** ** The batch: what is written, what is reported *)

Section ExtraTraceFacts.
Context (ext : Externals) (cfg : Settings) (w : World).

Lemma entry_events_writes host n t k entry :
  entry_hangs w k = false ->
  writes (entry_events ext cfg w host n t k entry) =
    match screenshot w k with
    | Resolved imgBuffer => [(filename_of ext cfg entry, imgBuffer)]
    | _ => []
    end /\
  mkdirs (entry_events ext cfg w host n t k entry) =
    match screenshot w k with
    | Resolved _ => [dirname_of ext cfg entry]
    | _ => []
    end.
Proof.
  unfold entry_events, writes, mkdirs, entry_hangs.
  destruct (screenshot w k); [destruct (mkdirp w k), (writeFile w k)| |];
    intros H; try discriminate H; by split.
Qed.

Lemma drain_events_writes host n l : forall t k,
  drain_hangs w k l = false ->
  writes (drain_events ext cfg w host n t k l) =
    omap (fun '(i, entry) =>
            match screenshot w i with
            | Resolved imgBuffer => Some (filename_of ext cfg entry, imgBuffer)
            | _ => None
            end) (zip (seq k (length l)) l) /\
  mkdirs (drain_events ext cfg w host n t k l) =
    omap (fun '(i, entry) =>
            match screenshot w i with
            | Resolved _ => Some (dirname_of ext cfg entry)
            | _ => None
            end) (zip (seq k (length l)) l).
Proof.
  induction l as [|entry l IH]; intros t k; [done|].
  cbn [drain_hangs]. intros [Hk Hl]%orb_false_iff.
  cbn [drain_events length seq zip zip_with omap list_omap]. rewrite Hk.
  destruct (entry_events_writes host n t k entry Hk) as [Hw Hm].
  destruct (IH (S (S t)) (S k) Hl) as [IHw IHm].
  unfold writes, mkdirs in *. rewrite !omap_app, Hw, Hm, IHw, IHm.
  by destruct (screenshot w k).
Qed.

End ExtraTraceFacts.

Section MkdirpFacts.
Context (ext : Externals) (cfg : Settings) (w : World)
  (answer : nat -> promise unit).
Hypothesis settles_alike : forall k, is_pending (answer k) = is_pending (mkdirp w k).

Lemma with_mkdirp_entry_hangs (k : nat) :
  entry_hangs (with_mkdirp w answer) k = entry_hangs w k.
Proof.
  unfold entry_hangs. cbn [with_mkdirp screenshot mkdirp writeFile].
  by rewrite settles_alike.
Qed.

Lemma with_mkdirp_entry_events host n t k entry :
  entry_events ext cfg (with_mkdirp w answer) host n t k entry
    = entry_events ext cfg w host n t k entry.
Proof.
  unfold entry_events. cbn [with_mkdirp screenshot mkdirp writeFile].
  by rewrite settles_alike.
Qed.

Lemma with_mkdirp_drain host n l : forall t k,
  drain_events ext cfg (with_mkdirp w answer) host n t k l
    = drain_events ext cfg w host n t k l /\
  drain_hangs (with_mkdirp w answer) k l = drain_hangs w k l /\
  drain_ticks (with_mkdirp w answer) t k l = drain_ticks w t k l.
Proof.
  induction l as [|entry l IH]; intros t k; [done|].
  cbn [drain_events drain_hangs drain_ticks].
  rewrite with_mkdirp_entry_hangs, with_mkdirp_entry_events.
  destruct (IH (S (S t)) (S k)) as (-> & -> & ->). done.
Qed.

Lemma with_mkdirp_batch (s : State) :
  batch_result (with_mkdirp w answer) (screenshotQueue s)
    = batch_result w (screenshotQueue s) /\
  batch_state ext cfg (with_mkdirp w answer) s = batch_state ext cfg w s.
Proof.
  assert (batch_result (with_mkdirp w answer) (screenshotQueue s)
          = batch_result w (screenshotQueue s)) as Hres.
  { unfold batch_result, batch_hangs.
    change (launched (with_mkdirp w answer)) with (launched w).
    change (setup_pends (with_mkdirp w answer)) with (setup_pends w).
    destruct (with_mkdirp_drain EmptyString 0 (screenshotQueue s) 0 0)
      as (_ & -> & _).
    reflexivity. }
  split; [done|]. unfold batch_state. rewrite Hres.
  change (launched (with_mkdirp w answer)) with (launched w).
  destruct (with_mkdirp_drain EmptyString 0 (screenshotQueue s) (ticks s) 0)
    as (_ & _ & ->).
  f_equal. f_equal. unfold batch_events.
  change (ready (with_mkdirp w answer)) with (ready w).
  change (launch (with_mkdirp w answer)) with (launch w).
  destruct (ready w) as [[| | | |announced| |]|e|]; try reflexivity.
  destruct (launch w) as [[b|]|e|]; try reflexivity.
  destruct (with_mkdirp_drain (trim announced) (length (screenshotQueue s))
              (screenshotQueue s) (ticks s) 0) as (-> & -> & _).
  reflexivity.
Qed.

End MkdirpFacts.

(** X8: what [mkdirp] answers does not matter, as long as it answers
    where it did: a batch in a world where creating the directories
    fails does, reports and leaves behind exactly what it does where
    they succeed. *)
Theorem X8_mkdirp_failure_is_absorbed
    (ext : Externals) (cfg : Settings) (w : World)
    (answer : nat -> promise unit) (s : State) :
  (forall k, is_pending (answer k) = is_pending (mkdirp w k)) ->
  captureScreenshots ext cfg (with_mkdirp w answer) s
    = captureScreenshots ext cfg w s.
Proof.
  intros Halike. destruct (screenshotQueue s) as [|entry q] eqn:Hq.
  - by rewrite !captureScreenshots_empty.
  - rewrite !captureScreenshots_run by (rewrite Hq; done).
    destruct (with_mkdirp_batch ext cfg w answer Halike s) as [-> ->]. done.
Qed.

Lemma X8_witness :
  captureScreenshots (example_ext no_rules) (example_cfg true)
    (with_mkdirp fine_world (fun _ => Rejected (Failure "EACCES")))
    (initial three_entries)
  = captureScreenshots (example_ext no_rules) (example_cfg true) fine_world
      (initial three_entries).
Proof.
  apply X8_mkdirp_failure_is_absorbed. intros k. reflexivity.
Defined.

(** X9: once the setup has succeeded, and as long as every call awaited
    in the loop settles, an image is written for exactly the entries
    whose capture returned, in queue order, to the file of the entry and
    with the bytes the capture returned; and the directory of such an
    entry is asked for.  Nothing is written for an entry whose capture
    threw. *)
Theorem X9_one_write_per_successful_capture
    (ext : Externals) (cfg : Settings) (w : World)
    (q : list OgImageOptions) (host : string) :
  setup_succeeds w host ->
  loop_hangs w (length q) = false ->
  let tr := events (captureScreenshots ext cfg w (initial q)).2 in
  writes tr =
    omap (fun '(k, entry) =>
            match screenshot w k with
            | Resolved imgBuffer => Some (filename_of ext cfg entry, imgBuffer)
            | _ => None
            end) (zip (seq 0 (length q)) q) /\
  mkdirs tr =
    omap (fun '(k, entry) =>
            match screenshot w k with
            | Resolved _ => Some (dirname_of ext cfg entry)
            | _ => None
            end) (zip (seq 0 (length q)) q).
Proof.
  intros Hsetup Hloop. cbn zeta. destruct q as [|entry q].
  { by rewrite captureScreenshots_empty. }
  rewrite <- drain_hangs_loop in Hloop.
  destruct (drain_events_writes ext cfg w host (length (entry :: q)) (entry :: q)
              0 0 Hloop) as [Hw Hm].
  unfold writes, mkdirs in *.
  by rewrite !(batch_projection ext cfg w _ (entry :: q) host), Hw, Hm.
Qed.

Lemma X9_witness :
  fst <$> writes (events (captureScreenshots (example_ext no_rules)
                            (example_cfg true) second_fails
                            (initial three_entries)).2)
  = ["/out/a/__og_image__/og.png"; "/out/c/__og_image__/og.png"].
Proof.
  assert (setup_succeeds second_fails "http://localhost:3000") as Hsetup.
  { exists ("http://localhost:3000" +:+ line_feed), Chromium.
    repeat split; vm_compute; reflexivity. }
  assert (loop_hangs second_fails (length three_entries) = false) as Hloop
    by (vm_compute; reflexivity).
  rewrite (proj1 (X9_one_write_per_successful_capture (example_ext no_rules)
                    (example_cfg true) second_fails three_entries
                    "http://localhost:3000" Hsetup Hloop)).
  vm_compute. reflexivity.
Defined.

Lemma no_glyph_before (n m k : nat) :
  (k + m <= n)%nat ->
  (fun i => bool_decide (i = n)) <$> seq k m = replicate m false.
Proof.
  revert k. induction m as [|m IH]; intros k Hk; [done|].
  cbn [seq fmap list_fmap replicate].
  rewrite bool_decide_false by lia. f_equal. apply IH. lia.
Qed.

(** X10: once the setup has succeeded, and as long as every call awaited
    in the loop settles, every report line carries the length of the
    queue as its total, and the glyph of the last entry is on the last
    line and on no other. *)
Theorem X10_last_line_alone_has_the_last_glyph
    (ext : Externals) (cfg : Settings) (w : World)
    (q : list OgImageOptions) (host : string) :
  setup_succeeds w host -> q <> [] ->
  loop_hangs w (length q) = false ->
  let tr := events (captureScreenshots ext cfg w (initial q)).2 in
  last_glyph <$> reports tr = replicate (length q - 1) false ++ [true] /\
  total <$> reports tr = replicate (length q) (length q).
Proof.
  intros Hsetup Hq Hloop. cbn zeta.
  rewrite <- drain_hangs_loop in Hloop.
  destruct (drain_all w q 0 Hloop) as [_ Hdone].
  destruct (drain_events_fields ext cfg w host (length q) q 0 0)
    as (_ & _ & _ & _ & Htotal & Hglyph & _).
  rewrite Hdone in Htotal, Hglyph.
  unfold reports in *.
  rewrite !(batch_projection ext cfg w _ q host) by done.
  split; [|done]. rewrite Hglyph.
  destruct (length q) as [|n] eqn:Hn; [by destruct q|].
  replace (S n - 1)%nat with n by lia.
  rewrite seq_S, fmap_app. cbn [fmap list_fmap Nat.add].
  rewrite bool_decide_true by done. f_equal.
  apply no_glyph_before. lia.
Qed.

Lemma X10_witness :
  last_glyph <$> reports (events (captureScreenshots (example_ext no_rules)
                                    (example_cfg true) second_fails
                                    (initial three_entries)).2)
  = [false; false; true].
Proof.
  assert (setup_succeeds second_fails "http://localhost:3000") as Hsetup.
  { exists ("http://localhost:3000" +:+ line_feed), Chromium.
    repeat split; vm_compute; reflexivity. }
  refine (proj1 (X10_last_line_alone_has_the_last_glyph (example_ext no_rules)
                   (example_cfg true) second_fails three_entries
                   "http://localhost:3000" Hsetup _ _)).
  - vm_compute. discriminate.
  - vm_compute. reflexivity.
Defined.

(** X11: when the setup is done with but has got hold of no browser
    (the announcement cannot be trimmed, or [createBrowser] throws or
    returns nothing), the batch captures and reports nothing and closes
    no browser; it kills the server once, as its last call, and ends as
    that call does: where [kill()] returns, the batch returns and still
    empties the queue, so the entries are dropped and no later trigger
    retries them. *)
Theorem X11_failed_setup_drops_the_queue
    (ext : Externals) (cfg : Settings) (w : World) (q : list OgImageOptions) :
  q <> [] ->
  setup_pends w = false ->
  launched w = None ->
  let run := captureScreenshots ext cfg w (initial q) in
  run.1 = kill_result w /\
  screenshotQueue run.2
    = match kill w with Returns _ => [] | Throws _ => q end /\
  screenshot_urls (events run.2) = [] /\
  reports (events run.2) = [] /\
  count is_kill (events run.2) = 1%nat /\
  count is_close (events run.2) = 0%nat /\
  count is_create (events run.2)
    = match ready w with Resolved (VStr _) => 1 | _ => 0 end%nat /\
  last (events run.2) = Some Kill.
Proof.
  intros Hq Hpends Hlaunched. cbn zeta. rewrite run_initial by done.
  cbn [fst snd events screenshotQueue].
  unfold batch_result, batch_hangs, release_result, kill_result.
  rewrite Hpends, Hlaunched. cbn [orb].
  unfold batch_events. unfold setup_pends in Hpends. unfold launched in Hlaunched.
  destruct (ready w) as [[| | | |announced| |]|e|]; try done;
    try (by destruct (kill w)).
  destruct (launch w) as [[b|]|e|]; try done; by destruct (kill w).
Qed.

Lemma X11_witness :
  screenshotQueue (captureScreenshots (example_ext no_rules) (example_cfg true)
                     no_browser_world (initial three_entries)).2 = [].
Proof.
  refine (proj1 (proj2 (X11_failed_setup_drops_the_queue (example_ext no_rules)
            (example_cfg true) no_browser_world three_entries _ _ _))).
  - vm_compute. discriminate.
  - vm_compute. reflexivity.
  - vm_compute. reflexivity.
Defined.

Lemma split_second_without_separator (sep s : string) :
  includes sep s = false -> split_second sep s = VUndef.
Proof.
  unfold includes, split_second. intros H.
  destruct (indexOf sep s) as [i|] eqn:E; [|done].
  apply bool_decide_eq_false in H. destruct H. by exists i.
Qed.

(** X12: the listener looks for the marker without a space after it and
    splits at the marker with one.  When the first chunk that includes
    the marker does not include it followed by a space, the promise
    resolves with [undefined], trimming it throws a [TypeError], and the
    batch logs that error, launches no browser, captures nothing, kills
    the server and ends as that call does, emptying the queue where it
    returns. *)
Theorem X12_marker_without_space_is_a_type_error
    (ext : Externals) (cfg : Settings) (w : World) (q : list OgImageOptions)
    (pre post : list string) (data : string) :
  q <> [] ->
  stdout w = Some (pre ++ data :: post) ->
  Forall (fun chunk => includes "Accepting connections at" chunk = false) pre ->
  includes "Accepting connections at" data = true ->
  includes "Accepting connections at " data = false ->
  ready w = Resolved VUndef /\
  let run := captureScreenshots ext cfg w (initial q) in
  run.1 = kill_result w /\
  events run.2 =
    [Spawn "npx" ["serve"; publicDir cfg]; ConsoleError TypeError; Kill] /\
  screenshotQueue run.2
    = match kill w with Returns _ => [] | Throws _ => q end.
Proof.
  intros Hq Hout Hpre Hdata Hspace.
  assert (ready w = Resolved VUndef) as Hready.
  { unfold ready. rewrite Hout, on_data_first by done.
    by rewrite split_second_without_separator. }
  split; [done|]. cbn zeta. rewrite run_initial by done.
  cbn [fst snd events screenshotQueue].
  unfold batch_result, batch_hangs, setup_pends, launched, batch_events,
    release_result, kill_result.
  rewrite Hready. cbn [orb]. by destruct (kill w).
Qed.

Lemma X12_witness :
  ready bare_marker_world = Resolved VUndef.
Proof.
  refine (proj1 (X12_marker_without_space_is_a_type_error (example_ext no_rules)
            (example_cfg true) bare_marker_world three_entries ["starting"] []
            ("Accepting connections at" +:+ line_feed) _ _ _ _ _)).
  - vm_compute. discriminate.
  - reflexivity.
  - repeat constructor.
  - vm_compute. reflexivity.
  - vm_compute. reflexivity.
Defined.

Lemma screenshot_in_urls (tr : list event) (i : nat) (url : string)
    (o : OgImageOptions) :
  tr !! i = Some (Screenshot url o) -> url ∈ screenshot_urls tr.
Proof.
  intros H. unfold screenshot_urls. apply list_elem_of_omap.
  exists (Screenshot url o). split; [|done]. by eapply list_elem_of_lookup_2.
Qed.

Lemma drain_events_no_release (ext : Externals) (cfg : Settings) (w : World)
    host n t k l (ev : event) :
  ev ∈ drain_events ext cfg w host n t k l ->
  is_close ev = false /\ is_kill ev = false.
Proof.
  intros Hin. split.
  - by apply (count_zero_elem is_close _ ev
                (drain_events_count ext cfg w is_close host n l t k
                   ltac:(done) ltac:(done) ltac:(done) ltac:(done) ltac:(done))).
  - by apply (count_zero_elem is_kill _ ev
                (drain_events_count ext cfg w is_kill host n l t k
                   ltac:(done) ltac:(done) ltac:(done) ltac:(done) ltac:(done))).
Qed.

Lemma release_events_lookup (w : World) (b : Browser) (D : list event) :
  let tr := D ++ release_events w (Some b) in
  tr !! length D = Some BrowserClose /\
  length tr = (if resolves (close w) then S (S (length D)) else S (length D)) /\
  (resolves (close w) = true -> tr !! S (length D) = Some Kill).
Proof.
  cbn zeta. unfold release_events.
  split; [by rewrite lookup_app_r, Nat.sub_diag by lia|].
  rewrite length_app.
  destruct (close w); cbn [resolves length]; (split; [lia|]); try done.
  intros _. rewrite lookup_app_r by lia.
  by replace (S (length D) - length D)%nat with 1%nat by lia.
Qed.

(** X13: no capture before the setup is complete and none once the
    release has begun.  Wherever a capture stands among the events of a
    batch, the server was spawned and the browser created before it, and
    every call of [browser.close()] or [kill()] stands behind it.  When
    every call awaited in the loop settles, [browser.close()] is called
    after the capture; when that call returns, [kill()] follows as the
    last event, and otherwise the call of [close()] is the last event. *)
Theorem X13_captures_lie_between_setup_and_release
    (ext : Externals) (cfg : Settings) (w : World) (q : list OgImageOptions)
    (i : nat) (url : string) (o : OgImageOptions) :
  let tr := events (captureScreenshots ext cfg w (initial q)).2 in
  tr !! i = Some (Screenshot url o) ->
  tr !! 0%nat = Some (Spawn "npx" ["serve"; publicDir cfg]) /\
  tr !! 1%nat = Some CreateBrowser /\
  (1 < i)%nat /\
  (forall j ev, tr !! j = Some ev -> is_close ev || is_kill ev = true ->
                (i < j)%nat) /\
  (loop_hangs w (length q) = false ->
   exists j, (i < j)%nat /\ tr !! j = Some BrowserClose /\
     length tr = (if resolves (close w) then S (S j) else S j) /\
     (resolves (close w) = true -> tr !! S j = Some Kill)).
Proof.
  cbn zeta. destruct q as [|entry q].
  { by rewrite captureScreenshots_empty. }
  rewrite run_initial by done. cbn [snd events]. intros Hi.
  destruct (launched w) as [b|] eqn:Hb.
  2: { apply screenshot_in_urls in Hi.
       destruct (batch_events_no_browser ext cfg w (entry :: q) 0 Hb) as [Hu _].
       rewrite Hu in Hi. by apply elem_of_nil in Hi. }
  destruct (launched_setup w b Hb) as [host Hsetup].
  rewrite (batch_events_setup ext cfg w (entry :: q) 0 host Hsetup) in *.
  rewrite Hb in *.
  pose proof (drain_events_no_release ext cfg w host (length (entry :: q)) 0 0
                (entry :: q)) as Hbody.
  set (D := drain_events ext cfg w host (length (entry :: q)) 0 0 (entry :: q)) in *.
  clearbody D.
  set (tail := if loop_hangs w (length (entry :: q)) then []
               else release_events w (Some b)) in *.
  assert (forall ev, ev ∈ tail -> forall url' o', ev <> Screenshot url' o') as Htail.
  { intros ev Hev url' o' ->. unfold tail, release_events in Hev.
    destruct (loop_hangs w (length (entry :: q))); [by apply elem_of_nil in Hev|].
    destruct (close w);
      repeat (apply elem_of_cons in Hev as [Hev|Hev]; [discriminate Hev|]);
      by apply elem_of_nil in Hev. }
  cbn [app] in *. split; [done|]. split; [done|].
  destruct i as [|[|[|i]]]; try done. cbn [lookup list_lookup] in Hi.
  apply lookup_app_Some in Hi as [Hi|[Hge Hi]].
  2: { apply list_elem_of_lookup_2 in Hi. by destruct (Htail _ Hi url o). }
  apply lookup_lt_Some in Hi. split; [lia|]. split.
  - intros j ev Hj Hrel.
    destruct j as [|[|[|j]]]; cbn [lookup list_lookup] in Hj;
      try (injection Hj as <-; discriminate Hrel).
    apply lookup_app_Some in Hj as [Hj|[Hge Hj]]; [|lia].
    apply list_elem_of_lookup_2 in Hj.
    destruct (Hbody ev Hj) as [Hc Hk]. rewrite Hc, Hk in Hrel. done.
  - intros Hloop. unfold tail. rewrite Hloop.
    destruct (release_events_lookup w b D) as (Hclose & Hlen & Hkill).
    exists (3 + length D)%nat. split; [lia|]. split; [exact Hclose|].
    split; [cbn [length]; rewrite Hlen; by destruct (resolves (close w))|].
    exact Hkill.
Qed.

Lemma X13_witness :
  let tr := events (captureScreenshots (example_ext no_rules) (example_cfg true)
                      fine_world (initial three_entries)).2 in
  tr !! 1%nat = Some CreateBrowser /\ (1 < 3)%nat.
Proof.
  cbn zeta.
  destruct (X13_captures_lie_between_setup_and_release (example_ext no_rules)
              (example_cfg true) fine_world three_entries 3
              "http://localhost:3000/a"
              (screenshot_options (example_cfg true)
                 (default (merge_options (plain_page "/") VUndef VUndef)
                          (head three_entries))))
    as (_ & Hcreate & Hlt & _).
  - vm_compute. reflexivity.
  - split; [exact Hcreate|exact Hlt].
Defined.



(** X18: the time reported for an entry is the difference of two
    readings of the clock, the one taken before its capture and the one
    taken after its write or its failure: in a batch whose setup has
    succeeded the line of the entry of index [k] carries the reading
    [2k + 1] less the reading [2k].  If the clock never goes back, no
    reported time is negative. *)
Theorem X18_reported_time_is_a_clock_difference
    (ext : Externals) (cfg : Settings) (w : World)
    (q : list OgImageOptions) (host : string) :
  setup_succeeds w host ->
  let lines := reports (events (captureScreenshots ext cfg w (initial q)).2) in
  generateTimeMS <$> lines
    = (fun k => clock w (S (2 * k)) - clock w (2 * k))%Z
        <$> seq 0 (drain_done w 0 q) /\
  ((forall i, (clock w i <= clock w (S i))%Z) ->
   Forall (fun line => (0 <= generateTimeMS line)%Z) lines).
Proof.
  intros Hsetup. cbn zeta.
  assert (generateTimeMS <$>
            reports (events (captureScreenshots ext cfg w (initial q)).2)
          = (fun k => clock w (S (2 * k)) - clock w (2 * k))%Z
              <$> seq 0 (drain_done w 0 q)) as Htime.
  { destruct q as [|entry q].
    { by rewrite captureScreenshots_empty. }
    unfold reports.
    rewrite (batch_projection ext cfg w _ (entry :: q) host) by done.
    fold (reports (drain_events ext cfg w host (length (entry :: q)) 0 0
                     (entry :: q))).
    by destruct (drain_events_fields ext cfg w host (length (entry :: q))
                   (entry :: q) 0 0) as (_ & _ & _ & _ & _ & _ & ->). }
  split; [exact Htime|]. intros Hmono.
  apply (Forall_fmap generateTimeMS (fun ms => (0 <= ms)%Z)).
  rewrite Htime. apply Forall_fmap, Forall_forall. intros k _. unfold compose.
  specialize (Hmono (2 * k)%nat). lia.
Qed.

Lemma X18_witness :
  generateTimeMS <$>
    reports (events (captureScreenshots (example_ext no_rules) (example_cfg true)
                       fine_world (initial three_entries)).2)
  = [10%Z; 10%Z; 10%Z].
Proof.
  refine (eq_trans (proj1 (X18_reported_time_is_a_clock_difference
            (example_ext no_rules) (example_cfg true) fine_world three_entries
            "http://localhost:3000" _)) _).
  - exists ("http://localhost:3000" +:+ line_feed), Chromium.
    repeat split; vm_compute; reflexivity.
  - vm_compute. reflexivity.
Defined.

(** ** Resources, in every world *)

(** X19: in every batch the server is spawned at most once and killed
    at most once, and the browser launched at most once and closed at
    most once.  On a non-empty queue the server is spawned exactly once;
    [browser.close()] is called exactly when a browser was launched and
    the [try] block is left, and [kill()] exactly when the [try] block is
    left and the [close()] awaited before it, if any, returns.  An
    exception of the [try] block never leaves the batch: one that does
    comes from [close()] or from [kill()]; and a batch that returns has
    killed the server as its last call. *)
Theorem X19_created_and_released_at_most_once
    (ext : Externals) (cfg : Settings) (w : World) (q : list OgImageOptions) :
  let run := captureScreenshots ext cfg w (initial q) in
  let tr := events run.2 in
  ((count is_spawn tr <= 1)%nat /\ (count is_create tr <= 1)%nat /\
   (count is_close tr <= 1)%nat /\ (count is_kill tr <= 1)%nat) /\
  (q <> [] ->
   count is_spawn tr = 1%nat /\
   (launched w <> None -> count is_create tr = 1%nat) /\
   count is_close tr = (if close_called w q then 1 else 0)%nat /\
   count is_kill tr = (if kill_called w q then 1 else 0)%nat) /\
  (forall e, run.1 = Exn e ->
     (launched w <> None /\ close w = Rejected e) \/ kill w = Throws e) /\
  (q <> [] -> run.1 = Val tt ->
   count is_kill tr = 1%nat /\ last tr = Some Kill /\
   count is_close tr = (match launched w with Some _ => 1 | None => 0 end)%nat).
Proof.
  cbn zeta. destruct q as [|entry q].
  { rewrite captureScreenshots_empty by done. cbn [fst snd events initial].
    unfold count. cbn. repeat split; try lia; done. }
  rewrite run_initial by done. cbn [fst snd events].
  destruct (batch_events_counts ext cfg w (entry :: q) 0)
    as (Hspawn & Hcreate & Hlaunch & Hclose & Hkill).
  split; [|split; [|split]].
  - rewrite Hspawn, Hclose, Hkill.
    destruct (close_called w (entry :: q)), (kill_called w (entry :: q));
      repeat split; lia.
  - intros _. by repeat split.
  - intros e. unfold batch_result, release_result, kill_result.
    destruct (batch_hangs w (entry :: q)); [done|].
    destruct (launched w) as [b|].
    + destruct (close w) as [[]|e'|]; try done.
      * destruct (kill w); [done|]. intros [= ->]. by right.
      * intros [= ->]. by left.
    + destruct (kill w); [done|]. intros [= ->]. by right.
  - intros _ Hval. rewrite Hclose, Hkill.
    destruct (batch_events_shape ext cfg w (entry :: q) 0) as (body & -> & _).
    unfold close_called, kill_called.
    unfold batch_result, release_result, kill_result in Hval.
    destruct (batch_hangs w (entry :: q)); [done|]. cbn [negb andb].
    unfold release_events.
    destruct (launched w) as [b|].
    + destruct (close w) as [[]|e'|]; try done. cbn [resolves].
      split; [done|]. split; [|done].
      change (Spawn "npx" ["serve"; publicDir cfg] :: body ++ [BrowserClose; Kill])
        with ((Spawn "npx" ["serve"; publicDir cfg] :: body)
              ++ [BrowserClose; Kill]).
      by rewrite (assoc_L (++) _ [BrowserClose] [Kill]), last_snoc.
    + split; [done|]. split; [|done].
      by rewrite app_comm_cons, last_snoc.
Qed.

Lemma X19_witness :
  let tr := events (captureScreenshots (example_ext no_rules) (example_cfg true)
                      second_fails (initial three_entries)).2 in
  count is_kill tr = 1%nat /\ last tr = Some Kill.
Proof.
  destruct (proj2 (proj2 (proj2 (X19_created_and_released_at_most_once
              (example_ext no_rules) (example_cfg true) second_fails
              three_entries)))) as (Hkill & Hlast & _).
  - vm_compute. discriminate.
  - vm_compute. reflexivity.
  - cbn zeta. split; [exact Hkill|exact Hlast].
Defined.

(** X20: the queue is reset on return and only then.  On an empty queue
    the trigger does nothing at all and leaves the state as it was.  A
    batch that returns leaves the queue empty, so the next trigger, in
    whatever world, finds nothing to do; a batch that does not return
    (it stays in an [await], or leaves by an exception of its [finally]
    block) had a non-empty queue and leaves it as it was. *)
Theorem X20_queue_is_reset_on_return_only
    (ext : Externals) (cfg : Settings) (w w' : World) (s : State) :
  (screenshotQueue s = [] -> captureScreenshots ext cfg w s = (Val tt, s)) /\
  (forall r s',
     captureScreenshots ext cfg w s = (r, s') ->
     (r = Val tt ->
      screenshotQueue s' = [] /\
      captureScreenshots ext cfg w' s' = (Val tt, s')) /\
     (r <> Val tt ->
      screenshotQueue s <> [] /\ screenshotQueue s' = screenshotQueue s)).
Proof.
  split; [apply captureScreenshots_empty|].
  intros r s' Hrun.
  destruct (screenshotQueue s) as [|entry q] eqn:Eq.
  - rewrite captureScreenshots_empty in Hrun by done.
    injection Hrun as <- <-. split; [|done].
    intros _. split; [done|]. by apply captureScreenshots_empty.
  - rewrite captureScreenshots_run in Hrun by (rewrite Eq; done).
    injection Hrun as <- <-. rewrite Eq. split.
    + intros Hval.
      assert (screenshotQueue (batch_state ext cfg w s) = []) as Hq.
      { cbn [screenshotQueue batch_state]. by rewrite Eq, Hval. }
      split; [done|]. by apply captureScreenshots_empty.
    + intros Hnot. split; [done|].
      cbn [screenshotQueue batch_state]. rewrite Eq.
      destruct (batch_result w (entry :: q)) as [[]| |]; done.
Qed.

Lemma X20_witness :
  let first := captureScreenshots (example_ext no_rules) (example_cfg true)
                 fine_world (initial three_entries) in
  captureScreenshots (example_ext no_rules) (example_cfg true) fine_world first.2
  = (Val tt, first.2).
Proof.
  cbn zeta.
  refine (proj2 (proj1 (proj2 (X20_queue_is_reset_on_return_only
            (example_ext no_rules) (example_cfg true) fine_world fine_world
            (initial three_entries)) (Val tt) _ _) _)).
  - vm_compute. reflexivity.
  - reflexivity.
Defined.

(** X21: a call that never settles stops everything.  When the setup
    has succeeded and the entry of index [j] is the first one with a
    call that stays pending, the batch stays in that [await]: the
    entries up to [j] have been begun and those before [j] reported, the
    later ones are never begun, the browser is not closed, the server is
    not killed, and the queue is left as it was. *)
Theorem X21_pending_call_stops_the_batch
    (ext : Externals) (cfg : Settings) (w : World) (q : list OgImageOptions)
    (host : string) (j : nat) :
  setup_succeeds w host ->
  (j < length q)%nat ->
  entry_hangs w j = true ->
  (forall i, (i < j)%nat -> entry_hangs w i = false) ->
  let run := captureScreenshots ext cfg w (initial q) in
  let tr := events run.2 in
  run.1 = Hang /\
  screenshot_urls tr = url_of host <$> take (S j) q /\
  length (reports tr) = j /\
  failed <$> reports tr = entry_fails w <$> seq 0 j /\
  count is_close tr = 0%nat /\ count is_kill tr = 0%nat /\
  screenshotQueue run.2 = q.
Proof.
  intros Hsetup Hj Hhang Hbefore. cbn zeta.
  assert (q <> []) as Hq by (destruct q; [cbn in Hj; lia|done]).
  destruct (drain_first_hang w q 0 j Hj Hhang Hbefore) as (Hdrain & Hbegun & Hdone).
  assert (batch_hangs w q = true) as Hbatch.
  { rewrite (batch_hangs_setup w q host Hsetup), <- drain_hangs_loop. exact Hdrain. }
  destruct (drain_events_fields ext cfg w host (length q) q 0 0)
    as (Hlen & Hfailed & _).
  unfold screenshot_urls, reports in *.
  rewrite !(batch_projection ext cfg w _ q host) by done.
  fold (screenshot_urls (drain_events ext cfg w host (length q) 0 0 q)).
  rewrite drain_events_urls, Hbegun, Hlen, Hfailed, Hdone.
  rewrite run_initial by done. cbn [fst snd events screenshotQueue].
  destruct (batch_events_counts ext cfg w q 0) as (_ & _ & _ & -> & ->).
  unfold batch_result, close_called, kill_called. rewrite Hbatch.
  cbn [negb andb]. by destruct (launched w).
Qed.

Lemma X21_witness :
  let run := captureScreenshots (example_ext no_rules) (example_cfg true)
               second_hangs (initial three_entries) in
  run.1 = Hang /\
  screenshot_urls (events run.2)
    = ["http://localhost:3000/a"; "http://localhost:3000/b"] /\
  count is_kill (events run.2) = 0%nat.
Proof.
  destruct (X21_pending_call_stops_the_batch (example_ext no_rules)
              (example_cfg true) second_hangs three_entries
              "http://localhost:3000" 1)
    as (Hhang & Hurls & _ & _ & _ & Hkill & _).
  - exists ("http://localhost:3000" +:+ line_feed), Chromium.
    repeat split; vm_compute; reflexivity.
  - vm_compute. lia.
  - reflexivity.
  - intros i Hi. assert (i = 0%nat) as -> by lia. reflexivity.
  - cbn zeta. split; [exact Hhang|]. split; [|exact Hkill].
    rewrite Hurls. vm_compute. reflexivity.
Defined.

(** ** Searching in strings *)

Lemma append_cons (x : Ascii.ascii) (a b : string) :
  String x a +:+ b = String x (a +:+ b).
Proof. reflexivity. Qed.

Lemma append_assoc (a b c : string) : (a +:+ b) +:+ c = a +:+ (b +:+ c).
Proof.
  induction a as [|x a IH]; [done|]. rewrite !append_cons. f_equal. exact IH.
Qed.

Lemma append_length (a b : string) :
  String.length (a +:+ b) = (String.length a + String.length b)%nat.
Proof.
  induction a as [|x a IH]; [done|]. rewrite append_cons. cbn [String.length].
  by rewrite IH.
Qed.

Lemma startsWith_append (p t : string) : startsWith p (p +:+ t) = true.
Proof.
  induction p as [|x p IH]; [done|]. rewrite append_cons. cbn [startsWith].
  by rewrite Ascii.eqb_refl, IH.
Qed.

Lemma startsWith_true (p s : string) :
  startsWith p s = true -> s = p +:+ string_drop (String.length p) s.
Proof.
  revert s. induction p as [|x p IH]; intros s H; [done|].
  destruct s as [|y s]; [done|]. cbn [startsWith] in H.
  apply andb_prop in H as [Hxy Hp]. apply Ascii.eqb_eq in Hxy as ->.
  rewrite append_cons. cbn [String.length string_drop]. f_equal. by apply IH.
Qed.

Lemma take_drop (i : nat) (s : string) :
  s = string_take i s +:+ string_drop i s.
Proof.
  revert s. induction i as [|i IH]; intros s; [by destruct s|].
  destruct s as [|x s]; [done|]. cbn [string_take string_drop].
  rewrite append_cons. f_equal. apply IH.
Qed.

Lemma take_length (i : nat) (s : string) :
  (i <= String.length s)%nat -> String.length (string_take i s) = i.
Proof.
  revert s. induction i as [|i IH]; intros s H; [by destruct s|].
  destruct s as [|x s]; cbn [String.length string_take] in *; [lia|].
  f_equal. apply IH. lia.
Qed.

Lemma drop_drop (i j : nat) (s : string) :
  string_drop j (string_drop i s) = string_drop (i + j) s.
Proof.
  revert s. induction i as [|i IH]; intros s; [done|].
  destruct s as [|x s]; [by destruct j|]. cbn [string_drop Nat.add]. apply IH.
Qed.

Lemma drop_append (a b : string) : string_drop (String.length a) (a +:+ b) = b.
Proof.
  induction a as [|x a IH]; [by destruct b|]. rewrite append_cons. exact IH.
Qed.

(** [indexOf] finds an occurrence ... *)
Lemma indexOf_Some (p s : string) (i : nat) :
  indexOf p s = Some i ->
  (i <= String.length s)%nat /\ startsWith p (string_drop i s) = true.
Proof.
  revert i. induction s as [|x s IH]; intros i; cbn [indexOf].
  - destruct (startsWith p EmptyString) eqn:E; [|done]. by intros [= <-].
  - destruct (startsWith p (String x s)) eqn:E.
    + intros [= <-]. split; [lia|done].
    + destruct (indexOf p s) as [j|]; [|done]. intros [= <-].
      destruct (IH j eq_refl) as [Hle Hs]. split; [cbn; lia|done].
Qed.

(** ... and the first one. *)
Lemma indexOf_first (p s : string) (i j : nat) :
  indexOf p s = Some i -> startsWith p (string_drop j s) = true ->
  (j <= String.length s)%nat -> (i <= j)%nat.
Proof.
  revert i j. induction s as [|x s IH]; intros i j; cbn [indexOf].
  - destruct (startsWith p EmptyString) eqn:E; [|done]. intros [= <-]. lia.
  - destruct (startsWith p (String x s)) eqn:E.
    + intros [= <-]. lia.
    + destruct (indexOf p s) as [i'|] eqn:Ei; [|done]. intros [= <-] Hj Hle.
      destruct j as [|j]; [cbn in Hj; congruence|].
      cbn in Hj, Hle. specialize (IH i' j eq_refl Hj). lia.
Qed.

Lemma indexOf_None (p s : string) (j : nat) :
  indexOf p s = None -> (j <= String.length s)%nat ->
  startsWith p (string_drop j s) = false.
Proof.
  revert j. induction s as [|x s IH]; intros j; cbn [indexOf].
  - destruct (startsWith p EmptyString) eqn:E; [done|]. intros _ Hj.
    cbn in Hj. by replace j with 0%nat by lia.
  - destruct (startsWith p (String x s)) eqn:E; [done|].
    destruct (indexOf p s) eqn:Ei; [done|]. intros _ Hj.
    destruct j as [|j]; [done|]. cbn in *. apply IH; [done|lia].
Qed.

(** [includes p s] says that [p] occurs in [s]. *)
Lemma includes_true (p s : string) :
  includes p s = true <-> exists a b, s = a +:+ p +:+ b.
Proof.
  unfold includes. rewrite bool_decide_eq_true. split.
  - intros [i Hi]. apply indexOf_Some in Hi as [_ Hs].
    apply startsWith_true in Hs.
    exists (string_take i s), (string_drop (String.length p) (string_drop i s)).
    rewrite <- Hs. apply take_drop.
  - intros (a & b & ->).
    destruct (indexOf p (a +:+ p +:+ b)) as [i|] eqn:E; [by exists i|].
    apply (indexOf_None _ _ (String.length a)) in E.
    + by rewrite drop_append, startsWith_append in E.
    + rewrite append_length. lia.
Qed.

Lemma includes_false (p s : string) :
  includes p s = false <-> forall a b, s <> a +:+ p +:+ b.
Proof.
  split.
  - intros H a b ->. assert (includes p (a +:+ p +:+ b) = true) as Ht
      by (apply includes_true; eauto). congruence.
  - intros H. destruct (includes p s) eqn:E; [|done].
    apply includes_true in E as (a & b & ->). by destruct (H a b).
Qed.

Lemma append_nil_r (a : string) : a +:+ EmptyString = a.
Proof.
  induction a as [|x a IH]; [done|]. rewrite append_cons. by f_equal.
Qed.

Lemma take_append (a b : string) : string_take (String.length a) (a +:+ b) = a.
Proof.
  induction a as [|x a IH]; [by destruct b|]. rewrite append_cons.
  cbn [String.length string_take]. by f_equal.
Qed.

(** What [s.split(sep)[1]] is when it is a string: the text between the
    first [sep] of [s] and the next one, or the end of [s]. *)
Lemma split_second_string (sep s t : string) :
  sep <> EmptyString ->
  split_second sep s = VStr t ->
  exists a b,
    s = a +:+ sep +:+ t +:+ b /\
    includes sep t = false /\
    (b = EmptyString \/ startsWith sep b = true) /\
    (forall a' b', s = a' +:+ sep +:+ b' -> (String.length a <= String.length a')%nat).
Proof.
  intros Hsep. unfold split_second.
  destruct (indexOf sep s) as [i|] eqn:Hi; [|done].
  destruct (indexOf_Some _ _ _ Hi) as [Hle Hstart].
  apply startsWith_true in Hstart. rewrite drop_drop in Hstart.
  set (rest := string_drop (i + String.length sep) s) in *.
  assert (forall a' b', s = a' +:+ sep +:+ b' ->
            (String.length (string_take i s) <= String.length a')%nat) as Hmin.
  { intros a' b' Hs. rewrite take_length by done.
    apply (indexOf_first sep s i (String.length a') Hi).
    - rewrite Hs. by rewrite drop_append, startsWith_append.
    - rewrite Hs. rewrite append_length. lia. }
  destruct (indexOf sep rest) as [j|] eqn:Hj; intros [= <-].
  - destruct (indexOf_Some _ _ _ Hj) as [Hjle Hjstart].
    exists (string_take i s), (string_drop j rest).
    split; [|split; [|split; [by right|done]]].
    + rewrite <- (take_drop j rest), <- Hstart. apply take_drop.
    + apply includes_false. intros x y Ht.
      assert (String.length (string_take j rest) = j) as Hlen
        by by apply take_length.
      rewrite Ht, !append_length in Hlen.
      assert (j <= String.length x)%nat; [|destruct sep; [done|cbn in Hlen; lia]].
      apply (indexOf_first sep rest j (String.length x) Hj).
      * rewrite (take_drop j rest), Ht, !append_assoc.
        by rewrite drop_append, startsWith_append.
      * rewrite (take_drop j rest), Ht, !append_length. lia.
  - exists (string_take i s), EmptyString.
    split; [|split; [|split; [by left|done]]].
    + rewrite append_nil_r, <- Hstart. apply take_drop.
    + unfold includes. rewrite Hj. apply bool_decide_eq_false. by intros [? ?].
Qed.

Lemma on_data_resolved (chunks : list string) (v : value) :
  on_data chunks = Resolved v ->
  exists pre data post,
    chunks = pre ++ data :: post /\
    Forall (fun chunk => includes "Accepting connections at" chunk = false) pre /\
    includes "Accepting connections at" data = true /\
    v = split_second "Accepting connections at " data.
Proof.
  induction chunks as [|chunk chunks IH]; cbn [on_data]; [done|].
  destruct (includes "Accepting connections at" chunk) eqn:E.
  - intros [= <-]. by exists [], chunk, chunks.
  - intros H. destruct (IH H) as (pre & data & post & -> & Hpre & Hdata & ->).
    exists (chunk :: pre), data, post. repeat split; try done. by constructor.
Qed.

(** X15: the origin the batch waits for.  When the readiness promise
    resolves with a string, that string is the text that stands, in the
    first chunk that includes the marker, between the first
    [Accepting connections at ] and the next one or the end of the
    chunk; the chunks before and after that chunk play no part. *)
Theorem X15_announced_origin
    (w : World) (announced : string) :
  ready w = Resolved (VStr announced) ->
  exists pre data post a b,
    stdout w = Some (pre ++ data :: post) /\
    Forall (fun chunk => includes "Accepting connections at" chunk = false) pre /\
    data = a +:+ "Accepting connections at " +:+ announced +:+ b /\
    includes "Accepting connections at " announced = false /\
    (b = EmptyString \/ startsWith "Accepting connections at " b = true) /\
    (forall a' b', data = a' +:+ "Accepting connections at " +:+ b' ->
                   (String.length a <= String.length a')%nat).
Proof.
  unfold ready. destruct (stdout w) as [chunks|]; [|done]. intros Hready.
  apply on_data_resolved in Hready as (pre & data & post & -> & Hpre & _ & Hv).
  symmetry in Hv. apply split_second_string in Hv as (a & b & Hd & Ht & Hb & Hmin);
    [|done].
  by exists pre, data, post, a, b.
Qed.

Lemma X15_witness :
  exists pre data post a b,
    stdout fine_world = Some (pre ++ data :: post) /\
    Forall (fun chunk => includes "Accepting connections at" chunk = false) pre /\
    data = a +:+ "Accepting connections at "
             +:+ ("http://localhost:3000" +:+ line_feed) +:+ b /\
    includes "Accepting connections at " ("http://localhost:3000" +:+ line_feed)
      = false /\
    (b = EmptyString \/ startsWith "Accepting connections at " b = true) /\
    (forall a' b', data = a' +:+ "Accepting connections at " +:+ b' ->
                   (String.length a <= String.length a')%nat).
Proof.
  apply (X15_announced_origin fine_world ("http://localhost:3000" +:+ line_feed)).
  vm_compute. reflexivity.
Defined.

(** ** Where the image goes *)

Lemma index_html_not_early (s : string) :
  startsWith "index.html" s = false -> s <> EmptyString ->
  startsWith "index.html" (s +:+ "index.html") = false.
Proof.
  intros H Hne. destruct s as [|c s]; [done|]. clear Hne.
  repeat (rewrite append_cons; cbn [startsWith] in *;
          match goal with
          | |- Ascii.eqb ?x ?c && _ = false =>
              destruct (Ascii.eqb x c); [cbn [andb] in *|done]
          end;
          clear c; destruct s as [|c s]; [by vm_compute|]).
  all: try done.
Qed.

Lemma index_html_first (dir : string) :
  includes "index.html" dir = false ->
  indexOf "index.html" (dir +:+ "index.html") = Some (String.length dir).
Proof.
  induction dir as [|c dir IH]; intros H; [by vm_compute|].
  assert (startsWith "index.html" (String c dir) = false
          /\ includes "index.html" dir = false) as [Hs Hd].
  { unfold includes in *. apply bool_decide_eq_false in H.
    cbn [indexOf] in H.
    destruct (startsWith "index.html" (String c dir)); [by destruct H; eexists|].
    split; [done|]. apply bool_decide_eq_false. intros [i Hi]. apply H.
    rewrite Hi. by eexists. }
  rewrite append_cons. cbn [indexOf]. rewrite <- append_cons.
  rewrite index_html_not_early by done. rewrite IH by done. done.
Qed.

(** X16: the place of an image.  For a page whose file is [index.html]
    in a directory whose name does not hold [index.html] itself, the
    image goes to [__og_image__/og.png] in that directory under the
    public directory; for a file name without [index.html], the
    [__og_image__/] is put straight behind the whole file name. *)
Theorem X16_image_path
    (ext : Externals) (cfg : Settings) (entry : OgImageOptions) (dir : string) :
  includes "index.html" dir = false ->
  (fileName (ctx entry) = dir +:+ "index.html" ->
   dirname_of ext cfg entry = joinURL ext (publicDir cfg) (dir +:+ "__og_image__/") /\
   filename_of ext cfg entry =
     joinURL ext (joinURL ext (publicDir cfg) (dir +:+ "__og_image__/")) "/og.png") /\
  (fileName (ctx entry) = dir ->
   dirname_of ext cfg entry = joinURL ext (publicDir cfg) (dir +:+ "__og_image__/")).
Proof.
  intros Hdir.
  assert (replace_first "index.html" EmptyString (dir +:+ "index.html") = dir)
    as Hreplace.
  { unfold replace_first. rewrite index_html_first by done.
    rewrite take_append, <- drop_drop, drop_append. by rewrite append_nil_r. }
  split.
  - intros Hfile. unfold filename_of, dirname_of. by rewrite Hfile, Hreplace.
  - intros Hfile. unfold dirname_of, replace_first. rewrite Hfile.
    unfold includes in Hdir. apply bool_decide_eq_false in Hdir.
    destruct (indexOf "index.html" dir) as [i|]; [by destruct Hdir; eexists|done].
Qed.

Lemma X16_witness :
  filename_of (example_ext no_rules) (example_cfg true)
    (merge_options (page "/blog/post" browser_payload) VUndef VUndef)
  = "/out/blog/post/__og_image__/og.png".
Proof.
  refine (eq_trans (proj2 (proj1 (X16_image_path (example_ext no_rules)
            (example_cfg true)
            (merge_options (page "/blog/post" browser_payload) VUndef VUndef)
            "/blog/post/" _) _)) _).
  - vm_compute. reflexivity.
  - vm_compute. reflexivity.
  - vm_compute. reflexivity.
Defined.
